(** * avito-intro: reviewer assignment service

    A shallow embedding of the Go packages [entity], [repository] and
    [usecase], and the properties of the pull-request and team services.

    Conventions.
    - A [uuid.UUID] is a 16-byte array that the code only compares with
      [==]; it is represented by the number its bytes spell ([N]).
    - A [time.Time] is an instant, represented by an integer; [time.Now()]
      is an input of the operation that calls it.
    - Structs are stored in the repository maps by pointer.  Every stored
      pointer is to a copy that no code writes afterwards, so a struct is
      represented by its value.  The one piece of memory that is written in
      place after it has been stored is the backing array of
      [AssignedReviewers] ([replaceReviewer]): these arrays live in an
      explicit heap and a slice is the address of its array.
    - Go does not fix the iteration order of a map: the in-memory
      repository is parametric in that order ([MapOrder]).
    - [math/rand] is an input: the sequence of raw draws of the call.
    - Logging and the mutex have no effect on a sequential run and are
      left out. *)

From stdpp Require Import gmap strings list fin_maps.

(** ** Package [entity] *)

Abbreviation UUID := N (only parsing).
Abbreviation Time := Z (only parsing).
Abbreviation loc := positive (only parsing).

(** [uuid.Nil], the zero value of a UUID. *)
Definition uuid_Nil : UUID := 0%N.

Module User.
Record t : Type := mk {
  UserID : UUID;
  Username : string;
  TeamName : string;
  IsActive : bool
}.
End User.

Module Team.
(** Modelled from the spec: the declaration of [entity.Team] (file
    [internal/entity/team.go]) is missing; the spec gives a team a unique
    name and an ordered list of member identifiers, and the controller
    builds it as [entity.Team{TeamName: ..., Members: memberIDs}]. *)
Record t : Type := mk {
  TeamName : string;
  Members : list UUID
}.
End Team.

Inductive PullRequestStatus : Type := StatusOpen | StatusMerged.

Module PullRequest.
Record t : Type := mk {
  PullRequestID : UUID;
  PullRequestName : string;
  AuthorID : UUID;
  Status : PullRequestStatus;
  AssignedReviewers : loc;
  CreatedAt : Time;
  MergedAt : option Time
}.
End PullRequest.

#[global] Instance PullRequestStatus_eq_dec : EqDecision PullRequestStatus.
Proof. solve_decision. Defined.
#[global] Instance User_eq_dec : EqDecision User.t.
Proof. solve_decision. Defined.
#[global] Instance Team_eq_dec : EqDecision Team.t.
Proof. solve_decision. Defined.
#[global] Instance PullRequest_eq_dec : EqDecision PullRequest.t.
Proof. solve_decision. Defined.

(** ** Errors and the state-and-error monad *)

(** The sentinel errors of [repository] and [usecase]; [ErrOther] stands for
    any other value of Go's open [error] type, which another implementation
    of the repository interfaces may return. *)
Inductive error : Type :=
  | ErrNotFound
  | ErrAlreadyExists
  | ErrPRMerged
  | ErrNotAssigned
  | ErrNoCandidate
  | ErrOther (msg : string).

#[global] Instance error_eq_dec : EqDecision error.
Proof. solve_decision. Defined.

Inductive result (A : Type) : Type :=
  | Ok (a : A)
  | Err (e : error).
Arguments Ok {A} a.
Arguments Err {A} e.

(** The memory of the process: the arrays behind the reviewer slices, and
    the state [R] of the repository object. *)
Record Mem (R : Type) : Type := mkMem {
  heap : gmap loc (list UUID);
  repo : R
}.
Arguments mkMem {R} heap repo.
Arguments heap {R} m.
Arguments repo {R} m.

(** A Go method [(T, error)]: it runs on the memory and returns a value or
    an error; what it wrote stays written in both cases. *)
Definition M (R A : Type) : Type := Mem R → result A * Mem R.

Definition ret {R A} (a : A) : M R A := λ m, (Ok a, m).
Definition fail {R A} (e : error) : M R A := λ m, (Err e, m).
Definition bind {R A B} (c : M R A) (k : A → M R B) : M R B :=
  λ m, match c m with
       | (Ok a, m') => k a m'
       | (Err e, m') => (Err e, m')
       end.

Notation "'do' x <- c ; k" := (bind c (λ x, k))
  (at level 10, x name, c at level 100, k at level 200).
Notation "'do' ' p <- c ; k" := (bind c (λ x, match x with p => k end))
  (at level 10, p pattern, c at level 100, k at level 200).

(** Slices of UUIDs. *)
Definition readSlice {R} (s : loc) : M R (list UUID) :=
  λ m, (Ok (default [] (heap m !! s)), m).
Definition writeSlice {R} (s : loc) (l : list UUID) : M R unit :=
  λ m, (Ok tt, mkMem (<[s := l]> (heap m)) (repo m)).
(** A new array with the contents [l], at an address not in use. *)
Definition newSlice {R} (l : list UUID) : M R loc :=
  λ m, let s := fresh (dom (heap m)) in
       (Ok s, mkMem (<[s := l]> (heap m)) (repo m)).

(** [slices.Contains] *)
Definition slices_Contains (l : list UUID) (x : UUID) : bool :=
  bool_decide (x ∈ l).

(** ** Package [repository]: the interfaces ([contracts.go]) *)

Class UserRepository (R : Type) : Type := {
  CreateUser : User.t → M R unit;
  UpdateUser : User.t → M R unit;
  GetUser : UUID → M R User.t;
  UserExists : UUID → M R bool;
  GetUsersByTeam : string → M R (list User.t);
  GetUsersByIDs : list UUID → M R (list User.t)
}.

Class TeamRepository (R : Type) : Type := {
  CreateTeam : Team.t → M R unit;
  GetTeam : string → M R Team.t;
  TeamExists : string → M R bool
}.

Class PullRequestRepository (R : Type) : Type := {
  CreatePullRequest : PullRequest.t → M R unit;
  GetPullRequest : UUID → M R PullRequest.t;
  UpdatePullRequest : PullRequest.t → M R unit;
  GetPullRequestsByReviewer : UUID → M R (list PullRequest.t);
  PRExists : UUID → M R bool
}.

(** ** Package [repository]: the in-memory implementation ([memory.go]) *)

Record MemoryRepository : Type := mkRepo {
  users : gmap UUID User.t;
  teams : gmap string Team.t;
  pullRequests : gmap UUID PullRequest.t
}.

(** [NewMemoryRepository] *)
Definition NewMemoryRepository : MemoryRepository := mkRepo ∅ ∅ ∅.

Definition set_users (f : gmap UUID User.t → gmap UUID User.t)
    (m : Mem MemoryRepository) : Mem MemoryRepository :=
  mkMem (heap m)
    (mkRepo (f (users (repo m))) (teams (repo m)) (pullRequests (repo m))).
Definition set_teams (f : gmap string Team.t → gmap string Team.t)
    (m : Mem MemoryRepository) : Mem MemoryRepository :=
  mkMem (heap m)
    (mkRepo (users (repo m)) (f (teams (repo m))) (pullRequests (repo m))).
Definition set_pullRequests
    (f : gmap UUID PullRequest.t → gmap UUID PullRequest.t)
    (m : Mem MemoryRepository) : Mem MemoryRepository :=
  mkMem (heap m)
    (mkRepo (users (repo m)) (teams (repo m)) (f (pullRequests (repo m)))).

(** The order in which a [range] loop visits the entries of a map. *)
Class MapOrder : Type := mkOrder {
  rangeUsers : gmap UUID User.t → list (UUID * User.t);
  rangePullRequests : gmap UUID PullRequest.t → list (UUID * PullRequest.t)
}.

(** A [range] loop visits every entry exactly once. *)
Record MapOrderOk (o : MapOrder) : Prop := {
  rangeUsers_perm : ∀ m, rangeUsers m ≡ₚ map_to_list m;
  rangePullRequests_perm : ∀ m, rangePullRequests m ≡ₚ map_to_list m
}.

Definition stdOrder : MapOrder := mkOrder map_to_list map_to_list.

Module Memory.
Section Memory.
Context {o : MapOrder}.
Local Abbreviation M := (M MemoryRepository).

Definition CreateUser (user : User.t) : M unit := λ m,
  match users (repo m) !! User.UserID user with
  | Some _ => (Err ErrAlreadyExists, m)
  | None => (Ok tt, set_users <[User.UserID user := user]> m)
  end.

Definition UpdateUser (user : User.t) : M unit := λ m,
  match users (repo m) !! User.UserID user with
  | None => (Err ErrNotFound, m)
  | Some _ => (Ok tt, set_users <[User.UserID user := user]> m)
  end.

Definition GetUser (userID : UUID) : M User.t := λ m,
  match users (repo m) !! userID with
  | None => (Err ErrNotFound, m)
  | Some user => (Ok user, m)
  end.

Definition UserExists (userID : UUID) : M bool := λ m,
  (Ok (bool_decide (is_Some (users (repo m) !! userID))), m).

Definition GetUsersByTeam (teamName : string) : M (list User.t) := λ m,
  (Ok (filter (λ user, User.TeamName user = teamName)
         (rangeUsers (users (repo m))).*2), m).

Definition GetUsersByIDs (userIDs : list UUID) : M (list User.t) := λ m,
  (Ok (omap (λ id, users (repo m) !! id) userIDs), m).

Definition CreateTeam (team : Team.t) : M unit := λ m,
  match teams (repo m) !! Team.TeamName team with
  | Some _ => (Err ErrAlreadyExists, m)
  | None => (Ok tt, set_teams <[Team.TeamName team := team]> m)
  end.

Definition GetTeam (teamName : string) : M Team.t := λ m,
  match teams (repo m) !! teamName with
  | None => (Err ErrNotFound, m)
  | Some team => (Ok team, m)
  end.

Definition TeamExists (teamName : string) : M bool := λ m,
  (Ok (bool_decide (is_Some (teams (repo m) !! teamName))), m).

Definition CreatePullRequest (pr : PullRequest.t) : M unit := λ m,
  match pullRequests (repo m) !! PullRequest.PullRequestID pr with
  | Some _ => (Err ErrAlreadyExists, m)
  | None =>
      (Ok tt, set_pullRequests <[PullRequest.PullRequestID pr := pr]> m)
  end.

Definition GetPullRequest (prID : UUID) : M PullRequest.t := λ m,
  match pullRequests (repo m) !! prID with
  | None => (Err ErrNotFound, m)
  | Some pr => (Ok pr, m)
  end.

Definition UpdatePullRequest (pr : PullRequest.t) : M unit := λ m,
  match pullRequests (repo m) !! PullRequest.PullRequestID pr with
  | None => (Err ErrNotFound, m)
  | Some _ =>
      (Ok tt, set_pullRequests <[PullRequest.PullRequestID pr := pr]> m)
  end.

Definition GetPullRequestsByReviewer (userID : UUID)
    : M (list PullRequest.t) := λ m,
  (Ok (filter
         (λ pr, userID ∈
                  default [] (heap m !! PullRequest.AssignedReviewers pr))
         (rangePullRequests (pullRequests (repo m))).*2), m).

Definition PRExists (prID : UUID) : M bool := λ m,
  (Ok (bool_decide (is_Some (pullRequests (repo m) !! prID))), m).

#[global] Instance userRepository : UserRepository MemoryRepository :=
  Build_UserRepository _
    CreateUser UpdateUser GetUser UserExists GetUsersByTeam GetUsersByIDs.
#[global] Instance teamRepository : TeamRepository MemoryRepository :=
  Build_TeamRepository _ CreateTeam GetTeam TeamExists.
#[global] Instance pullRequestRepository
    : PullRequestRepository MemoryRepository :=
  Build_PullRequestRepository _
    CreatePullRequest GetPullRequest UpdatePullRequest
    GetPullRequestsByReviewer PRExists.
End Memory.
End Memory.

(** ** [math/rand]

    The source of randomness is the sequence [rnd 0], [rnd 1], ... of raw
    draws; [rand.Intn(n)] is the next draw reduced modulo [n] (the library
    panics for [n <= 0]; both call sites pass a positive bound). *)
Definition rand_Intn (rnd : nat → nat) (n : nat) : nat := rnd 0 `mod` n.
Definition rand_next (rnd : nat → nat) : nat → nat := λ k, rnd (S k).

(** The callback of [selectRandomReviewers]:
    [candidates[i], candidates[j] = candidates[j], candidates[i]].
    An index out of range panics in Go; [rand.Shuffle] only passes indices
    below the length. *)
Definition swap {A} (i j : nat) (l : list A) : list A :=
  match l !! i, l !! j with
  | Some x, Some y => <[i := y]> (<[j := x]> l)
  | _, _ => l
  end.

(** [rand.Shuffle(n, swap)]:
    [for i := n - 1; i > 0; i-- { j := Intn(i + 1); swap(i, j) }]. *)
Fixpoint shuffle_loop {A} (i : nat) (rnd : nat → nat) (l : list A) : list A :=
  match i with
  | 0 => l
  | S i' => shuffle_loop i' (rand_next rnd) (swap i (rand_Intn rnd (S i)) l)
  end.
Definition rand_Shuffle {A} (rnd : nat → nat) (l : list A) : list A :=
  shuffle_loop (length l - 1) rnd l.

(** ** Package [usecase] *)

Module usecase.
Section usecase.
Context {R : Type}.
Context {userRepo : UserRepository R} {teamRepo : TeamRepository R}
        {prRepo : PullRequestRepository R}.
Local Abbreviation M := (M R).

(** *** [team.go] *)

Definition checkTeamNotExists (teamName : string) : M unit :=
  do exists_ <- TeamExists teamName;
  if (exists_ : bool) then fail ErrAlreadyExists else ret tt.

(** The loop variable [member] is a new variable in every iteration (the
    code ranges over an integer, so it is Go 1.22 or later): [&member]
    is a pointer to a copy of the element. *)
Fixpoint createOrUpdateMembers (members : list User.t) : M unit :=
  match members with
  | [] => ret tt
  | member :: members =>
      do exists_ <- UserExists (User.UserID member);
      do _ <- (if (exists_ : bool)
               then UpdateUser member
               else CreateUser member);
      createOrUpdateMembers members
  end.

Definition createTeam (team : Team.t) : M unit :=
  CreateTeam team.

Definition AddTeam (team : Team.t) (members : list User.t) : M Team.t :=
  do _ <- checkTeamNotExists (Team.TeamName team);
  do _ <- createOrUpdateMembers members;
  do _ <- createTeam team;
  ret team.

Definition getTeamByName (teamName : string) : M Team.t :=
  GetTeam teamName.

Definition getTeamMembers (memberIDs : list UUID) : M (list User.t) :=
  GetUsersByIDs memberIDs.

Definition GetTeam (teamName : string) : M (Team.t * list User.t) :=
  do team <- getTeamByName teamName;
  do users <- getTeamMembers (Team.Members team);
  ret (team, users).

(** *** [user.go] *)

Definition getUser (userID : UUID) : M User.t :=
  GetUser userID.

Definition updateUserActiveStatus (user : User.t) (isActive : bool)
    : User.t :=
  User.mk (User.UserID user) (User.Username user) (User.TeamName user)
    isActive.

Definition saveUser (user : User.t) : M unit :=
  UpdateUser user.

Definition SetIsActive (userID : UUID) (isActive : bool) : M User.t :=
  do user <- getUser userID;
  let updatedUser := updateUserActiveStatus user isActive in
  do _ <- saveUser updatedUser;
  ret updatedUser.

(** *** [pull_request.go] *)

(** The package's own [min(a, b int)], applied to lengths. *)
Definition min (a b : nat) : nat :=
  if decide (a < b) then a else b.

Definition checkPRNotExists (prID : UUID) : M unit :=
  do exists_ <- PRExists prID;
  if (exists_ : bool) then fail ErrAlreadyExists else ret tt.

Definition getAuthor (authorID : UUID) : M User.t :=
  GetUser authorID.

Fixpoint filterActiveCandidates (teamMembers : list User.t)
    (authorID : UUID) : list User.t :=
  match teamMembers with
  | [] => []
  | member :: teamMembers =>
      if bool_decide (User.UserID member ≠ authorID) && User.IsActive member
      then member :: filterActiveCandidates teamMembers authorID
      else filterActiveCandidates teamMembers authorID
  end.

(** [make([]uuid.UUID, count)] and the loop
    [for i := range count { reviewers[i] = candidates[i].UserID }].
    [candidates[i]] out of range panics in Go; [count] is at most the
    number of candidates. *)
Definition firstIDs (candidates : list User.t) (count : nat) : list UUID :=
  foldl (λ reviewers i,
           match candidates !! i with
           | Some c => <[i := User.UserID c]> reviewers
           | None => reviewers
           end)
        (replicate count uuid_Nil) (seq 0 count).

(** The array of the result is built by the function and not shared
    before it returns: it is allocated with its final contents. *)
Definition selectRandomReviewers (rnd : nat → nat)
    (candidates : list User.t) (maxCount : nat) : M loc :=
  let count := min (length candidates) maxCount in
  if decide (count = 0) then newSlice []
  else
    let candidates := rand_Shuffle rnd candidates in
    newSlice (firstIDs candidates count).

Definition assignReviewers (rnd : nat → nat) (author : User.t) : M loc :=
  do teamMembers <- GetUsersByTeam (User.TeamName author);
  let candidates :=
    filterActiveCandidates teamMembers (User.UserID author) in
  selectRandomReviewers rnd candidates 2.

Definition CreatePR (now : Time) (rnd : nat → nat)
    (prID : UUID) (prName : string) (authorID : UUID) : M PullRequest.t :=
  do _ <- checkPRNotExists prID;
  do author <- getAuthor authorID;
  do reviewers <- assignReviewers rnd author;
  let pr := PullRequest.mk prID prName authorID StatusOpen reviewers
              now None in
  do _ <- CreatePullRequest pr;
  ret pr.

Definition getPR (prID : UUID) : M PullRequest.t :=
  GetPullRequest prID.

Definition MergePR (now : Time) (prID : UUID) : M PullRequest.t :=
  do pr <- getPR prID;
  if decide (PullRequest.Status pr = StatusMerged) then ret pr
  else
    let pr := PullRequest.mk (PullRequest.PullRequestID pr)
                (PullRequest.PullRequestName pr) (PullRequest.AuthorID pr)
                StatusMerged (PullRequest.AssignedReviewers pr)
                (PullRequest.CreatedAt pr) (Some now) in
    do _ <- UpdatePullRequest pr;
    ret pr.

Definition checkPRNotMerged (pr : PullRequest.t) : M unit :=
  if decide (PullRequest.Status pr = StatusMerged) then fail ErrPRMerged
  else ret tt.

Definition checkReviewerAssigned (pr : PullRequest.t) (reviewerID : UUID)
    : M unit :=
  do reviewers <- readSlice (PullRequest.AssignedReviewers pr);
  if slices_Contains reviewers reviewerID then ret tt
  else fail ErrNotAssigned.

Definition isAlreadyReviewer (userID : UUID) (reviewers : list UUID)
    : bool :=
  slices_Contains reviewers userID.

Fixpoint filterReplacementCandidates (teamMembers : list User.t)
    (authorID : UUID) (currentReviewers : list UUID) : list User.t :=
  match teamMembers with
  | [] => []
  | member :: teamMembers =>
      let candidates :=
        filterReplacementCandidates teamMembers authorID currentReviewers in
      if negb (User.IsActive member) then candidates
      else if bool_decide (User.UserID member = authorID) then candidates
      else if isAlreadyReviewer (User.UserID member) currentReviewers
      then candidates
      else member :: candidates
  end.

(** [candidates[rand.Intn(len(candidates))]]: the index is in range, the
    last branch stands for the panic of an index out of range. *)
Definition findReplacementReviewer (rnd : nat → nat) (teamName : string)
    (authorID : UUID) (currentReviewers : loc) : M User.t :=
  do teamMembers <- GetUsersByTeam teamName;
  do reviewers <- readSlice currentReviewers;
  let candidates :=
    filterReplacementCandidates teamMembers authorID reviewers in
  if decide (length candidates = 0) then fail ErrNoCandidate
  else
    match candidates !! rand_Intn rnd (length candidates) with
    | Some selected => ret selected
    | None => fail (ErrOther "index out of range")
    end.

(** The write goes to the array, which the stored pull request shares. *)
Definition replaceReviewer (pr : PullRequest.t)
    (oldReviewerID newReviewerID : UUID) : M unit :=
  do reviewers <- readSlice (PullRequest.AssignedReviewers pr);
  match list_find (λ id, id = oldReviewerID) reviewers with
  | Some (i, _) =>
      writeSlice (PullRequest.AssignedReviewers pr)
        (<[i := newReviewerID]> reviewers)
  | None => ret tt
  end.

Definition ReassignReviewer (rnd : nat → nat)
    (prID : UUID) (oldReviewerID : UUID) : M (PullRequest.t * UUID) :=
  do pr <- getPR prID;
  do _ <- checkPRNotMerged pr;
  do _ <- checkReviewerAssigned pr oldReviewerID;
  do oldReviewer <- getUser oldReviewerID;
  do newReviewer <-
    findReplacementReviewer rnd (User.TeamName oldReviewer)
      (PullRequest.AuthorID pr) (PullRequest.AssignedReviewers pr);
  do _ <- replaceReviewer pr oldReviewerID (User.UserID newReviewer);
  do _ <- UpdatePullRequest pr;
  ret (pr, User.UserID newReviewer).

Definition GetUserReviews (userID : UUID) : M (list PullRequest.t) :=
  GetPullRequestsByReviewer userID.
End usecase.
End usecase.

(** ** The application ([app.New]): one in-memory repository behind the
    three services *)

Abbreviation State := (Mem MemoryRepository).

(** The memory at start-up. *)
Definition initial : State := mkMem ∅ NewMemoryRepository.

(** The reviewer list of a pull request, read through its slice. *)
Definition reviewersOf (m : State) (pr : PullRequest.t) : list UUID :=
  default [] (heap m !! PullRequest.AssignedReviewers pr).

(** A request to one of the services, with the inputs that the call takes
    from its environment (the clock and the random draws). *)
Module Call.
Inductive t : Type :=
  | AddTeam (team : Team.t) (members : list User.t)
  | GetTeam (teamName : string)
  | SetIsActive (userID : UUID) (isActive : bool)
  | CreatePR (now : Time) (rnd : nat → nat)
      (prID : UUID) (prName : string) (authorID : UUID)
  | MergePR (now : Time) (prID : UUID)
  | ReassignReviewer (rnd : nat → nat) (prID : UUID) (oldReviewerID : UUID)
  | GetUserReviews (userID : UUID).
End Call.

(** The memory after a request, whatever it returned. *)
Definition exec (o : MapOrder) (c : Call.t) (m : State) : State :=
  match c with
  | Call.AddTeam team members => (usecase.AddTeam team members m).2
  | Call.GetTeam teamName => (usecase.GetTeam teamName m).2
  | Call.SetIsActive userID isActive =>
      (usecase.SetIsActive userID isActive m).2
  | Call.CreatePR now rnd prID prName authorID =>
      (usecase.CreatePR now rnd prID prName authorID m).2
  | Call.MergePR now prID => (usecase.MergePR now prID m).2
  | Call.ReassignReviewer rnd prID oldReviewerID =>
      (usecase.ReassignReviewer rnd prID oldReviewerID m).2
  | Call.GetUserReviews userID =>
      (usecase.GetUserReviews userID m).2
  end.

(** The memories that a sequence of requests can produce; every request may
    see another iteration order of the maps. *)
Inductive reachable : State → Prop :=
  | reachable_initial : reachable initial
  | reachable_exec o c m :
      MapOrderOk o → reachable m → reachable (exec o c m).

(** What holds of every reachable memory. *)
Record Inv (m : State) : Prop := {
  inv_user_key : ∀ k u,
    users (repo m) !! k = Some u → User.UserID u = k;
  inv_pr_key : ∀ k pr,
    pullRequests (repo m) !! k = Some pr → PullRequest.PullRequestID pr = k;
  inv_merged : ∀ k pr,
    pullRequests (repo m) !! k = Some pr →
    is_Some (PullRequest.MergedAt pr) ↔ PullRequest.Status pr = StatusMerged;
  inv_alloc : ∀ k pr,
    pullRequests (repo m) !! k = Some pr →
    is_Some (heap m !! PullRequest.AssignedReviewers pr);
  inv_separate : ∀ k1 k2 pr1 pr2,
    pullRequests (repo m) !! k1 = Some pr1 →
    pullRequests (repo m) !! k2 = Some pr2 →
    PullRequest.AssignedReviewers pr1 = PullRequest.AssignedReviewers pr2 →
    k1 = k2;
  inv_reviewers : ∀ k pr,
    pullRequests (repo m) !! k = Some pr →
    NoDup (reviewersOf m pr) ∧ PullRequest.AuthorID pr ∉ reviewersOf m pr
}.

(** ** The services on the in-memory repository, in closed form *)

(** The reviewers that [assignReviewers] selects for [author] among the
    users [us]. *)
Definition assignedTo {o : MapOrder} (rnd : nat → nat)
    (us : gmap UUID User.t) (author : User.t) : list UUID :=
  let candidates :=
    usecase.filterActiveCandidates
      (filter (λ user, User.TeamName user = User.TeamName author)
         (rangeUsers us).*2)
      (User.UserID author) in
  let count := usecase.min (length candidates) 2 in
  if decide (count = 0) then []
  else usecase.firstIDs (rand_Shuffle rnd candidates) count.

(** The candidates of [findReplacementReviewer] among the users [us]. *)
Definition replacementCandidates {o : MapOrder} (us : gmap UUID User.t)
    (teamName : string) (authorID : UUID) (reviewers : list UUID)
    : list User.t :=
  usecase.filterReplacementCandidates
    (filter (λ user, User.TeamName user = teamName) (rangeUsers us).*2)
    authorID reviewers.

(** The pull request that [MergePR] writes back. *)
Definition merged (now : Time) (pr : PullRequest.t) : PullRequest.t :=
  PullRequest.mk (PullRequest.PullRequestID pr)
    (PullRequest.PullRequestName pr) (PullRequest.AuthorID pr)
    StatusMerged (PullRequest.AssignedReviewers pr)
    (PullRequest.CreatedAt pr) (Some now).

(** The user records after [createOrUpdateMembers]. *)
Definition upsert (us : gmap UUID User.t) (members : list User.t)
    : gmap UUID User.t :=
  foldl (λ us member, <[User.UserID member := member]> us) us members.

(** ** Notions of the specification *)

(** The record supplied last for [id] in a member list. *)
Definition latest (id : UUID) (members : list User.t) : option User.t :=
  last (filter (λ u, User.UserID u = id) members).

(** A user that [CreatePR] may assign: active, on the team of the author,
    and not the author. *)
Definition eligible (author : User.t) (u : User.t) : Prop :=
  User.TeamName u = User.TeamName author
  ∧ User.UserID u ≠ User.UserID author
  ∧ User.IsActive u = true.

#[global] Instance eligible_dec author u : Decision (eligible author u).
Proof. unfold eligible. apply _. Defined.

(** The number of user records that are eligible for [author]. *)
Definition eligibleCount (us : gmap UUID User.t) (author : User.t) : nat :=
  size (filter (λ kv : UUID * User.t, eligible author kv.2) us).

(** A user that [ReassignReviewer] may choose for a pull request of
    [authorID] with the reviewers [reviewers], on the team [teamName]. *)
Definition replacement (teamName : string) (authorID : UUID)
    (reviewers : list UUID) (u : User.t) : Prop :=
  User.TeamName u = teamName
  ∧ User.IsActive u = true
  ∧ User.UserID u ≠ authorID
  ∧ User.UserID u ∉ reviewers.

(** The preconditions of [ReassignReviewer] in the order of the
    specification: the error of the first check that fails. *)
Definition reassignPrecondition (m : State) (prID oldReviewerID : UUID)
    : option error :=
  match pullRequests (repo m) !! prID with
  | None => Some ErrNotFound
  | Some pr =>
      if decide (PullRequest.Status pr = StatusMerged) then Some ErrPRMerged
      else if decide (oldReviewerID ∈ reviewersOf m pr) then
        match users (repo m) !! oldReviewerID with
        | None => Some ErrNotFound
        | Some _ => None
        end
      else Some ErrNotAssigned
  end.

(** The contract of the user and team repositories that [AddTeam] relies
    on: existence checks only read, a write that fails writes nothing, a
    write that succeeds is what [GetUser] returns for that identifier and
    no other, and writing a user creates no team. *)
Class RepositoryContract (R : Type)
    `{!UserRepository R, !TeamRepository R} : Prop := {
  UserExists_reads : ∀ id m, (UserExists id m).2 = m;
  TeamExists_reads : ∀ name m, (TeamExists name m).2 = m;
  CreateUser_fails : ∀ u m e m', CreateUser u m = (Err e, m') → m' = m;
  UpdateUser_fails : ∀ u m e m', UpdateUser u m = (Err e, m') → m' = m;
  CreateUser_GetUser : ∀ u m m' id,
    CreateUser u m = (Ok tt, m') →
    (GetUser id m').1 =
      if decide (id = User.UserID u) then Ok u else (GetUser id m).1;
  UpdateUser_GetUser : ∀ u m m' id,
    UpdateUser u m = (Ok tt, m') →
    (GetUser id m').1 =
      if decide (id = User.UserID u) then Ok u else (GetUser id m).1;
  CreateUser_TeamExists : ∀ u m name,
    (TeamExists name (CreateUser u m).2).1 = (TeamExists name m).1;
  UpdateUser_TeamExists : ∀ u m name,
    (TeamExists name (UpdateUser u m).2).1 = (TeamExists name m).1
}.

(** A second implementation of [UserRepository], to exercise an upsert that
    fails: the in-memory repository with user records that cannot be
    rewritten.  It is not part of the service. *)
Module WriteOnce.
Definition UpdateUser (user : User.t) : M MemoryRepository unit :=
  fail (ErrOther "user records are write-once").

Definition userRepository (o : MapOrder)
    : UserRepository MemoryRepository :=
  Build_UserRepository _
    Memory.CreateUser UpdateUser Memory.GetUser Memory.UserExists
    Memory.GetUsersByTeam Memory.GetUsersByIDs.
End WriteOnce.

(** ** Later memories and what they keep *)

(** The memories that further requests lead to. *)
Inductive evolves (m : State) : State → Prop :=
  | evolves_refl : evolves m m
  | evolves_exec o c m' :
      MapOrderOk o → evolves m m' → evolves m (exec o c m').


(** What a later memory keeps of a stored pull request. *)
Definition keeps (m : State) (pr : PullRequest.t)
    (m' : State) (pr' : PullRequest.t) : Prop :=
  PullRequest.PullRequestID pr' = PullRequest.PullRequestID pr
  ∧ PullRequest.PullRequestName pr' = PullRequest.PullRequestName pr
  ∧ PullRequest.AuthorID pr' = PullRequest.AuthorID pr
  ∧ PullRequest.CreatedAt pr' = PullRequest.CreatedAt pr
  ∧ PullRequest.AssignedReviewers pr' = PullRequest.AssignedReviewers pr
  ∧ length (reviewersOf m' pr') = length (reviewersOf m pr)
  ∧ (PullRequest.Status pr = StatusMerged →
     pr' = pr ∧ reviewersOf m' pr' = reviewersOf m pr).

(** The reviewers of every stored pull request are at most two users that
    have a record. *)
Definition reviewersKnown (m : State) : Prop :=
  ∀ k pr, pullRequests (repo m) !! k = Some pr →
    length (reviewersOf m pr) ≤ 2
    ∧ ∀ id, id ∈ reviewersOf m pr → is_Some (users (repo m) !! id).




(** ** Package [controller]

    A handler is modelled from the point where the request is decoded to
    the point where the response is encoded: its input is the decoded
    body or the query parameter, its result the status and the value that
    [sendJSON] encodes.  [uuid.Parse], [UUID.String] and the RFC 3339
    format of a time are library functions, taken as parameters. *)

Class Codec : Type := mkCodec {
  uuid_Parse : string → option UUID;
  uuid_String : UUID → string;
  time_Format : Time → string
}.

Module controller.

Module TeamMemberDTO.
Record t : Type := mk {
  UserID : string;
  Username : string;
  IsActive : bool
}.
End TeamMemberDTO.

Module TeamDTO.
Record t : Type := mk {
  TeamName : string;
  Members : list TeamMemberDTO.t
}.
End TeamDTO.

Module UserDTO.
Record t : Type := mk {
  UserID : string;
  Username : string;
  TeamName : string;
  IsActive : bool
}.
End UserDTO.

Module PullRequestDTO.
Record t : Type := mk {
  PullRequestID : string;
  PullRequestName : string;
  AuthorID : string;
  Status : string;
  AssignedReviewers : list string;
  CreatedAt : option string;
  MergedAt : option string
}.
End PullRequestDTO.

Module PullRequestShortDTO.
Record t : Type := mk {
  PullRequestID : string;
  PullRequestName : string;
  AuthorID : string;
  Status : string
}.
End PullRequestShortDTO.

Inductive ErrorCode : Type :=
  | ErrorCodeTeamExists
  | ErrorCodePRExists
  | ErrorCodePRMerged
  | ErrorCodeNotAssigned
  | ErrorCodeNoCandidate
  | ErrorCodeNotFound
  | ErrorCodeInvalidInput.

(** The decoded request bodies of the handlers that declare theirs inline. *)
Module SetIsActiveRequest.
Record t : Type := mk {
  UserID : string;
  IsActive : bool
}.
End SetIsActiveRequest.

Module CreatePRRequest.
Record t : Type := mk {
  PullRequestID : string;
  PullRequestName : string;
  AuthorID : string
}.
End CreatePRRequest.

Module MergePRRequest.
Record t : Type := mk {
  PullRequestID : string
}.
End MergePRRequest.

Module ReassignRequest.
Record t : Type := mk {
  PullRequestID : string;
  OldUserID : string
}.
End ReassignRequest.

(** The values that the handlers encode: [ErrorResponse], and the response
    of each handler by its JSON keys. *)
Inductive Body : Type :=
  | ErrorResponse (code : ErrorCode) (message : string)
  | TeamResponse (team : TeamDTO.t)
  | TeamBody (team : TeamDTO.t)
  | UserResponse (user : UserDTO.t)
  | ReviewsResponse (user_id : string)
      (pull_requests : list PullRequestShortDTO.t)
  | PullRequestResponse (pr : PullRequestDTO.t)
  | ReassignResponse (pr : PullRequestDTO.t) (replaced_by : string).

Record Response : Type := mkResponse {
  status : nat;
  body : Body
}.

(** [net/http] status codes. *)
Definition StatusOK : nat := 200.
Definition StatusCreated : nat := 201.
Definition StatusBadRequest : nat := 400.
Definition StatusNotFound : nat := 404.
Definition StatusConflict : nat := 409.
Definition StatusInternalServerError : nat := 500.

Definition sendJSON (status : nat) (data : Body) : Response :=
  mkResponse status data.

Definition sendError (status : nat) (code : ErrorCode) (message : string)
    : Response :=
  sendJSON status (ErrorResponse code message).

Section controller.
Context {R : Type}.
Context {userRepo : UserRepository R} {teamRepo : TeamRepository R}
        {prRepo : PullRequestRepository R}.
Context {codec : Codec}.

(** A handler with its request: the response and the memory it leaves. *)
Local Abbreviation Handler := (Mem R → Response * Mem R).

(** *** The mapper *)

Definition UserToDTO (user : User.t) : UserDTO.t :=
  UserDTO.mk (uuid_String (User.UserID user)) (User.Username user)
    (User.TeamName user) (User.IsActive user).

Definition TeamMemberToDTO (user : User.t) : TeamMemberDTO.t :=
  TeamMemberDTO.mk (uuid_String (User.UserID user)) (User.Username user)
    (User.IsActive user).

Definition TeamToDTO (team : Team.t) (members : list User.t) : TeamDTO.t :=
  TeamDTO.mk (Team.TeamName team) (TeamMemberToDTO <$> members).

(** [string(pr.Status)] *)
Definition Status_string (s : PullRequestStatus) : string :=
  match s with
  | StatusOpen => "OPEN"
  | StatusMerged => "MERGED"
  end.

Definition formatTimePtr (t : option Time) : option string :=
  match t with
  | None => None
  | Some t => Some (time_Format t)
  end.

(** The reviewers are read through the slice of the pull request, in the
    memory at the time of the conversion. *)
Definition PullRequestToDTO (m : Mem R) (pr : PullRequest.t)
    : PullRequestDTO.t :=
  PullRequestDTO.mk
    (uuid_String (PullRequest.PullRequestID pr))
    (PullRequest.PullRequestName pr)
    (uuid_String (PullRequest.AuthorID pr))
    (Status_string (PullRequest.Status pr))
    (uuid_String <$> default [] (heap m !! PullRequest.AssignedReviewers pr))
    (formatTimePtr (Some (PullRequest.CreatedAt pr)))
    (formatTimePtr (PullRequest.MergedAt pr)).

Definition PullRequestToShortDTO (pr : PullRequest.t)
    : PullRequestShortDTO.t :=
  PullRequestShortDTO.mk
    (uuid_String (PullRequest.PullRequestID pr))
    (PullRequest.PullRequestName pr)
    (uuid_String (PullRequest.AuthorID pr))
    (Status_string (PullRequest.Status pr)).

Definition TeamMemberDTOToEntity (dto : TeamMemberDTO.t) (teamName : string)
    : option User.t :=
  match uuid_Parse (TeamMemberDTO.UserID dto) with
  | None => None
  | Some userID =>
      Some (User.mk userID (TeamMemberDTO.Username dto) teamName
              (TeamMemberDTO.IsActive dto))
  end.

(** *** [TeamController] *)

(** The loop of [AddTeam] over the members of the request: the entities,
    or nothing at the first identifier that does not parse. *)
Fixpoint parseMembers (members : list TeamMemberDTO.t) (teamName : string)
    : option (list User.t) :=
  match members with
  | [] => Some []
  | m :: members =>
      match TeamMemberDTOToEntity m teamName with
      | None => None
      | Some user =>
          match parseMembers members teamName with
          | None => None
          | Some users => Some (user :: users)
          end
      end
  end.

Definition TeamController_AddTeam (decoded : option TeamDTO.t) : Handler :=
  λ mem,
  match decoded with
  | None =>
      (sendError StatusBadRequest ErrorCodeInvalidInput
         "invalid request body", mem)
  | Some req =>
      match parseMembers (TeamDTO.Members req) (TeamDTO.TeamName req) with
      | None =>
          (sendError StatusBadRequest ErrorCodeInvalidInput
             "invalid user_id format", mem)
      | Some members =>
          let team :=
            Team.mk (TeamDTO.TeamName req) (User.UserID <$> members) in
          match usecase.AddTeam team members mem with
          | (Err ErrAlreadyExists, mem) =>
              (sendError StatusBadRequest ErrorCodeTeamExists
                 "team_name already exists", mem)
          | (Err _, mem) =>
              (sendError StatusInternalServerError ErrorCodeInvalidInput
                 "internal server error", mem)
          | (Ok createdTeam, mem) =>
              match usecase.GetTeam (Team.TeamName createdTeam) mem with
              | (Err _, mem) =>
                  (sendError StatusInternalServerError ErrorCodeInvalidInput
                     "internal server error", mem)
              | (Ok (_, retrievedMembers), mem) =>
                  (sendJSON StatusCreated
                     (TeamResponse (TeamToDTO createdTeam retrievedMembers)),
                   mem)
              end
          end
      end
  end.

Definition TeamController_GetTeam (teamName : string) : Handler :=
  λ mem,
  if decide (teamName = "") then
    (sendError StatusBadRequest ErrorCodeInvalidInput
       "team_name query parameter is required", mem)
  else
    match usecase.GetTeam teamName mem with
    | (Err ErrNotFound, mem) =>
        (sendError StatusNotFound ErrorCodeNotFound "team not found", mem)
    | (Err _, mem) =>
        (sendError StatusInternalServerError ErrorCodeInvalidInput
           "internal server error", mem)
    | (Ok (team, members), mem) =>
        (sendJSON StatusOK (TeamBody (TeamToDTO team members)), mem)
    end.

(** *** [UserController] *)

Definition UserController_SetIsActive
    (decoded : option SetIsActiveRequest.t) : Handler :=
  λ mem,
  match decoded with
  | None =>
      (sendError StatusBadRequest ErrorCodeInvalidInput
         "invalid request body", mem)
  | Some req =>
      match uuid_Parse (SetIsActiveRequest.UserID req) with
      | None =>
          (sendError StatusBadRequest ErrorCodeInvalidInput
             "invalid user_id format", mem)
      | Some userID =>
          match usecase.SetIsActive userID
                  (SetIsActiveRequest.IsActive req) mem with
          | (Err ErrNotFound, mem) =>
              (sendError StatusNotFound ErrorCodeNotFound "user not found",
               mem)
          | (Err _, mem) =>
              (sendError StatusInternalServerError ErrorCodeInvalidInput
                 "internal server error", mem)
          | (Ok user, mem) =>
              (sendJSON StatusOK (UserResponse (UserToDTO user)), mem)
          end
      end
  end.

Definition UserController_GetReview (userIDStr : string) : Handler :=
  λ mem,
  if decide (userIDStr = "") then
    (sendError StatusBadRequest ErrorCodeInvalidInput
       "user_id query parameter is required", mem)
  else
    match uuid_Parse userIDStr with
    | None =>
        (sendError StatusBadRequest ErrorCodeInvalidInput
           "invalid user_id format", mem)
    | Some userID =>
        match usecase.GetUserReviews userID mem with
        | (Err _, mem) =>
            (sendError StatusInternalServerError ErrorCodeInvalidInput
               "internal server error", mem)
        | (Ok prs, mem) =>
            (sendJSON StatusOK
               (ReviewsResponse userIDStr (PullRequestToShortDTO <$> prs)),
             mem)
        end
    end.

(** *** [PullRequestController] *)

Definition PullRequestController_CreatePR (now : Time) (rnd : nat → nat)
    (decoded : option CreatePRRequest.t) : Handler :=
  λ mem,
  match decoded with
  | None =>
      (sendError StatusBadRequest ErrorCodeInvalidInput
         "invalid request body", mem)
  | Some req =>
      match uuid_Parse (CreatePRRequest.PullRequestID req) with
      | None =>
          (sendError StatusBadRequest ErrorCodeInvalidInput
             "invalid pull_request_id format", mem)
      | Some prID =>
          match uuid_Parse (CreatePRRequest.AuthorID req) with
          | None =>
              (sendError StatusBadRequest ErrorCodeInvalidInput
                 "invalid author_id format", mem)
          | Some authorID =>
              match usecase.CreatePR now rnd prID
                      (CreatePRRequest.PullRequestName req) authorID mem with
              | (Err ErrAlreadyExists, mem) =>
                  (sendError StatusConflict ErrorCodePRExists
                     "PR id already exists", mem)
              | (Err ErrNotFound, mem) =>
                  (sendError StatusNotFound ErrorCodeNotFound
                     "author or team not found", mem)
              | (Err _, mem) =>
                  (sendError StatusInternalServerError ErrorCodeInvalidInput
                     "internal server error", mem)
              | (Ok pr, mem) =>
                  (sendJSON StatusCreated
                     (PullRequestResponse (PullRequestToDTO mem pr)), mem)
              end
          end
      end
  end.

Definition PullRequestController_MergePR (now : Time)
    (decoded : option MergePRRequest.t) : Handler :=
  λ mem,
  match decoded with
  | None =>
      (sendError StatusBadRequest ErrorCodeInvalidInput
         "invalid request body", mem)
  | Some req =>
      match uuid_Parse (MergePRRequest.PullRequestID req) with
      | None =>
          (sendError StatusBadRequest ErrorCodeInvalidInput
             "invalid pull_request_id format", mem)
      | Some prID =>
          match usecase.MergePR now prID mem with
          | (Err ErrNotFound, mem) =>
              (sendError StatusNotFound ErrorCodeNotFound "PR not found", mem)
          | (Err _, mem) =>
              (sendError StatusInternalServerError ErrorCodeInvalidInput
                 "internal server error", mem)
          | (Ok pr, mem) =>
              (sendJSON StatusOK
                 (PullRequestResponse (PullRequestToDTO mem pr)), mem)
          end
      end
  end.

Definition PullRequestController_ReassignReviewer (rnd : nat → nat)
    (decoded : option ReassignRequest.t) : Handler :=
  λ mem,
  match decoded with
  | None =>
      (sendError StatusBadRequest ErrorCodeInvalidInput
         "invalid request body", mem)
  | Some req =>
      match uuid_Parse (ReassignRequest.PullRequestID req) with
      | None =>
          (sendError StatusBadRequest ErrorCodeInvalidInput
             "invalid pull_request_id format", mem)
      | Some prID =>
          match uuid_Parse (ReassignRequest.OldUserID req) with
          | None =>
              (sendError StatusBadRequest ErrorCodeInvalidInput
                 "invalid old_user_id format", mem)
          | Some oldReviewerID =>
              match usecase.ReassignReviewer rnd prID oldReviewerID mem with
              | (Err ErrNotFound, mem) =>
                  (sendError StatusNotFound ErrorCodeNotFound
                     "PR or user not found", mem)
              | (Err ErrPRMerged, mem) =>
                  (sendError StatusConflict ErrorCodePRMerged
                     "cannot reassign on merged PR", mem)
              | (Err ErrNotAssigned, mem) =>
                  (sendError StatusConflict ErrorCodeNotAssigned
                     "reviewer is not assigned to this PR", mem)
              | (Err ErrNoCandidate, mem) =>
                  (sendError StatusConflict ErrorCodeNoCandidate
                     "no active replacement candidate in team", mem)
              | (Err _, mem) =>
                  (sendError StatusInternalServerError ErrorCodeInvalidInput
                     "internal server error", mem)
              | (Ok (pr, newReviewerID), mem) =>
                  (sendJSON StatusOK
                     (ReassignResponse (PullRequestToDTO mem pr)
                        (uuid_String newReviewerID)), mem)
              end
          end
      end
  end.
End controller.
End controller.

(** ** The service behind its HTTP interface *)

(** A request to the server, as the handler receives it after decoding. *)
Module Request.
Inductive t : Type :=
  | TeamAdd (decoded : option controller.TeamDTO.t)
  | TeamGet (teamName : string)
  | UsersSetIsActive (decoded : option controller.SetIsActiveRequest.t)
  | UsersGetReview (userIDStr : string)
  | PullRequestCreate (now : Time) (rnd : nat → nat)
      (decoded : option controller.CreatePRRequest.t)
  | PullRequestMerge (now : Time)
      (decoded : option controller.MergePRRequest.t)
  | PullRequestReassign (rnd : nat → nat)
      (decoded : option controller.ReassignRequest.t).
End Request.

(** The routes of [app.New]. *)
Definition serve {o : MapOrder} {codec : Codec} (r : Request.t) (m : State)
    : controller.Response * State :=
  match r with
  | Request.TeamAdd decoded => controller.TeamController_AddTeam decoded m
  | Request.TeamGet teamName => controller.TeamController_GetTeam teamName m
  | Request.UsersSetIsActive decoded =>
      controller.UserController_SetIsActive decoded m
  | Request.UsersGetReview userIDStr =>
      controller.UserController_GetReview userIDStr m
  | Request.PullRequestCreate now rnd decoded =>
      controller.PullRequestController_CreatePR now rnd decoded m
  | Request.PullRequestMerge now decoded =>
      controller.PullRequestController_MergePR now decoded m
  | Request.PullRequestReassign rnd decoded =>
      controller.PullRequestController_ReassignReviewer rnd decoded m
  end.


(** ** Examples *)

Module Example.
Definition alice : User.t := User.mk 1 "alice" "A" true.
Definition bob : User.t := User.mk 2 "bob" "A" true.
Definition carol : User.t := User.mk 3 "carol" "A" true.
Definition dave : User.t := User.mk 4 "dave" "A" true.
Definition erin : User.t := User.mk 5 "erin" "A" false.

Definition rnd : nat → nat := λ k, 7 * k + 3.

(** Team A with alice, bob and carol; pull request 10 of alice. *)
Definition withTeam : State :=
  exec stdOrder
    (Call.AddTeam (Team.mk "A" [1; 2; 3]%N) [alice; bob; carol]) initial.
Definition withPR : State :=
  exec stdOrder (Call.CreatePR 100 rnd 10 "fix" 1) withTeam.

(** The same with dave on the team as well. *)
Definition withTeam4 : State :=
  exec stdOrder
    (Call.AddTeam (Team.mk "A" [1; 2; 3; 4]%N) [alice; bob; carol; dave])
    initial.
Definition withPR4 : State :=
  exec stdOrder (Call.CreatePR 100 rnd 10 "fix" 1) withTeam4.

(** Erin, who is inactive, alone on team A. *)
Definition withErin : State :=
  exec stdOrder (Call.AddTeam (Team.mk "A" [5]%N) [erin]) initial.

(** Pull request 10 as [CreatePR] returns it, and the memories after
    bob is replaced on it and after it is merged. *)
Definition pr10 : PullRequest.t :=
  PullRequest.mk 10 "fix" 1 StatusOpen 1%positive 100 None.
Definition reassigned : State :=
  exec stdOrder (Call.ReassignReviewer rnd 10 2) withPR4.
Definition merged10 : State := exec stdOrder (Call.MergePR 200 10) withPR.

(** A new user, a second record for the identifier of bob, and team B. *)
Definition zed : User.t := User.mk 9 "zed" "B" true.
Definition bob2 : User.t := User.mk 2 "robert" "B" false.
Definition yan : User.t := User.mk 8 "yan" "B" true.
Definition teamB : Team.t := Team.mk "B" [9; 2; 8]%N.
Definition withZed : State := set_users <[9%N := zed]> withTeam.
End Example.

(** ** Further examples *)

Module Scenario.
(** A stand-in for the library functions of [Codec]: an identifier is
    written as the letter u followed by as many x as its number. *)
Fixpoint unary (n : nat) : string :=
  match n with
  | 0 => ""
  | S n => "x" +:+ unary n
  end.
Definition idString (id : UUID) : string :=
  "u" +:+ unary (N.to_nat id).
Fixpoint parseUnary (s : string) : option UUID :=
  match s with
  | "" => Some 0%N
  | String c s =>
      if decide (String c "" = "x") then N.succ <$> parseUnary s else None
  end.
Definition parseID (s : string) : option UUID :=
  match s with
  | String c s => if decide (String c "" = "u") then parseUnary s else None
  | "" => None
  end.
Definition codec : Codec := mkCodec parseID idString (λ _, "time").

(** Pull request 10 once merged, and the memory after bob is deactivated
    as well. *)
Definition pr10merged : PullRequest.t :=
  PullRequest.mk 10 "fix" 1 StatusMerged 1%positive 100 (Some 200%Z).
Definition later : State :=
  exec stdOrder (Call.SetIsActive 2 false) Example.merged10.

(** Team A with alice, bob and erin, who is inactive. *)
Definition withInactive : State :=
  exec stdOrder
    (Call.AddTeam (Team.mk "A" [1; 2; 5]%N)
       [Example.alice; Example.bob; Example.erin]) initial.

(** Team B added to the memory with team A; bob is supplied again. *)
Definition members : list User.t := [Example.zed; Example.bob2; Example.yan].
Definition withTeamB : State :=
  exec stdOrder (Call.AddTeam Example.teamB members) Example.withTeam.

(** The request [POST /team/add] for team A with two members, and the
    memory after it. *)
Definition addA : controller.TeamDTO.t :=
  controller.TeamDTO.mk "A"
    [controller.TeamMemberDTO.mk "ux" "alice" true;
     controller.TeamMemberDTO.mk "uxx" "bob" true].
Definition parsedA : list User.t := [Example.alice; Example.bob].
End Scenario.

(** * Properties *)

#[local] Set Warnings "-clear-no-such-hyp".

(** ** The shuffle *)

Lemma insert_head_Permutation {A} (l : list A) (j : nat) (x y : A) :
  l !! j = Some y → y :: <[j := x]> l ≡ₚ x :: l.
Proof.
  revert j. induction l as [|z l IH]; intros [|j] Hj; simplify_eq/=.
  - apply perm_swap.
  - rewrite (perm_swap z y), (IH j Hj). apply perm_swap.
Qed.

Lemma swap_Permutation {A} (i j : nat) (l : list A) : swap i j l ≡ₚ l.
Proof.
  unfold swap. destruct (l !! i) as [x|] eqn:Hi; [|done].
  destruct (l !! j) as [y|] eqn:Hj; [|done].
  revert i j Hi Hj. induction l as [|z l IH]; intros [|i] [|j] Hi Hj;
    simplify_eq/=; try done.
  - by apply insert_head_Permutation.
  - by apply insert_head_Permutation.
  - f_equiv. by apply IH.
Qed.

Lemma shuffle_loop_Permutation {A} (i : nat) rnd (l : list A) :
  shuffle_loop i rnd l ≡ₚ l.
Proof.
  revert rnd l. induction i as [|i IH]; intros rnd l; simpl; [done|].
  rewrite IH. apply swap_Permutation.
Qed.

Lemma rand_Shuffle_Permutation {A} rnd (l : list A) : rand_Shuffle rnd l ≡ₚ l.
Proof. apply shuffle_loop_Permutation. Qed.

(** ** The pure helpers of the pull-request service *)

Lemma min_spec (a b : nat) : usecase.min a b = a `min` b.
Proof. unfold usecase.min. case_decide; lia. Qed.

Lemma firstIDs_prefix (candidates : list User.t) (n : nat) (rest : list UUID) :
  n ≤ length candidates →
  ∀ k, k ≤ n →
  foldl (λ reviewers i,
           match candidates !! i with
           | Some c => <[i := User.UserID c]> reviewers
           | None => reviewers
           end)
        (replicate n uuid_Nil) (seq 0 k)
  = (User.UserID <$> take k candidates) ++ replicate (n - k) uuid_Nil.
Proof.
  intros Hn k. induction k as [|k IH]; intros Hk.
  - simpl. by rewrite Nat.sub_0_r.
  - rewrite seq_S, foldl_app, IH by lia. simpl.
    destruct (lookup_lt_is_Some_2 candidates k) as [c Hc]; [lia|].
    rewrite Hc, (take_S_r _ _ _ Hc), fmap_app. simpl.
    replace (n - k) with (S (n - S k)) by lia. simpl.
    rewrite <-(Nat.add_0_r k) at 1.
    replace k with (length (User.UserID <$> take k candidates)) at 1
      by (rewrite length_fmap, length_take; lia).
    rewrite insert_app_r. simpl. by rewrite <-app_assoc.
Qed.

Lemma firstIDs_take (candidates : list User.t) (count : nat) :
  count ≤ length candidates →
  usecase.firstIDs candidates count = User.UserID <$> take count candidates.
Proof.
  intros Hn. unfold usecase.firstIDs.
  rewrite (firstIDs_prefix candidates count [] Hn count) by done.
  by rewrite Nat.sub_diag, app_nil_r.
Qed.

Lemma filterActiveCandidates_filter teamMembers authorID :
  usecase.filterActiveCandidates teamMembers authorID
  = filter (λ u, User.UserID u ≠ authorID ∧ User.IsActive u = true)
      teamMembers.
Proof.
  induction teamMembers as [|u l IH]; [done|]. simpl.
  rewrite filter_cons, IH.
  destruct (decide _) as [Hd|Hd]; destruct (User.IsActive u);
    case_bool_decide; simpl; naive_solver.
Qed.

Lemma filterReplacementCandidates_filter teamMembers authorID reviewers :
  usecase.filterReplacementCandidates teamMembers authorID reviewers
  = filter (λ u, User.IsActive u = true ∧ User.UserID u ≠ authorID
                 ∧ User.UserID u ∉ reviewers)
      teamMembers.
Proof.
  induction teamMembers as [|u l IH]; [done|]. simpl.
  rewrite filter_cons, IH.
  unfold usecase.isAlreadyReviewer, slices_Contains.
  destruct (decide _) as [Hd|Hd]; destruct (User.IsActive u); simpl;
    repeat case_bool_decide; naive_solver.
Qed.

(** ** The in-memory repository: iteration order and candidates *)

Section range.
Context {o : MapOrder} (Ho : MapOrderOk o).
Implicit Types us : gmap UUID User.t.

Lemma elem_of_rangeUsers us u :
  u ∈ (rangeUsers us).*2 ↔ ∃ k, us !! k = Some u.
Proof.
  rewrite (rangeUsers_perm o Ho), list_elem_of_fmap. split.
  - intros [[k u'] [-> Hin]]. exists k. by apply elem_of_map_to_list.
  - intros [k Hk]. exists (k, u). split; [done|].
    by apply elem_of_map_to_list.
Qed.

Lemma rangeUsers_ids_NoDup us :
  (∀ k u, us !! k = Some u → User.UserID u = k) →
  NoDup (User.UserID <$> (rangeUsers us).*2).
Proof.
  intros Hkey. rewrite (rangeUsers_perm o Ho), <-list_fmap_compose.
  rewrite (list_fmap_ext _ fst (map_to_list us)).
  - apply NoDup_fst_map_to_list.
  - intros i [k u] Hi. simpl. apply Hkey.
    apply elem_of_map_to_list, list_elem_of_lookup. eauto.
Qed.

Lemma length_filter_snd {A B} (P : B → Prop) `{!∀ x, Decision (P x)}
    (l : list (A * B)) :
  length (filter P l.*2) = length (filter (λ kv, P kv.2) l).
Proof.
  induction l as [|[k x] l IH]; [done|]. csimpl.
  rewrite !filter_cons. simpl. destruct (decide (P x)); simpl; congruence.
Qed.

Lemma length_filter_rangeUsers (P : User.t → Prop)
    `{!∀ x, Decision (P x)} us :
  length (filter P (rangeUsers us).*2)
  = size (filter (λ kv : UUID * User.t, P kv.2) us).
Proof.
  rewrite (rangeUsers_perm o Ho), length_filter_snd, map_filter_alt.
  rewrite map_size_list_to_map; [done|].
  eapply sublist_NoDup; [apply (NoDup_fst_map_to_list us)|].
  apply fmap_sublist, sublist_filter.
Qed.

(** The candidates of [assignReviewers]. *)
Lemma candidates_eligible us author :
  usecase.filterActiveCandidates
    (filter (λ user, User.TeamName user = User.TeamName author)
       (rangeUsers us).*2)
    (User.UserID author)
  = filter (eligible author) (rangeUsers us).*2.
Proof.
  rewrite filterActiveCandidates_filter, list_filter_filter.
  apply list_filter_iff. unfold eligible. naive_solver.
Qed.

Lemma assignedTo_take rnd us author :
  assignedTo rnd us author
  = User.UserID <$>
      take (length (filter (eligible author) (rangeUsers us).*2) `min` 2)
        (rand_Shuffle rnd (filter (eligible author) (rangeUsers us).*2)).
Proof.
  unfold assignedTo. rewrite candidates_eligible, min_spec.
  set (cands := filter _ _).
  destruct (decide _) as [->|_]; [done|].
  apply firstIDs_take. rewrite (rand_Shuffle_Permutation rnd cands). lia.
Qed.

Lemma length_assignedTo rnd us author :
  length (assignedTo rnd us author) = 2 `min` eligibleCount us author.
Proof.
  rewrite assignedTo_take, length_fmap, length_take.
  rewrite (rand_Shuffle_Permutation rnd), length_filter_rangeUsers.
  unfold eligibleCount. lia.
Qed.

Lemma elem_of_assignedTo rnd us author id :
  id ∈ assignedTo rnd us author →
  ∃ k u, us !! k = Some u ∧ User.UserID u = id ∧ eligible author u.
Proof.
  rewrite assignedTo_take.
  intros (u & -> & Hu%(sublist_subseteq _ _ (sublist_take _ _)))%list_elem_of_fmap.
  rewrite (rand_Shuffle_Permutation rnd) in Hu.
  apply list_elem_of_filter in Hu as [Hel Hu].
  apply elem_of_rangeUsers in Hu as [k Hk]. eauto.
Qed.

Lemma assignedTo_NoDup rnd us author :
  (∀ k u, us !! k = Some u → User.UserID u = k) →
  NoDup (assignedTo rnd us author).
Proof.
  intros Hkey. rewrite assignedTo_take.
  eapply sublist_NoDup; [|apply fmap_sublist, sublist_take].
  rewrite (rand_Shuffle_Permutation rnd).
  eapply sublist_NoDup; [by apply rangeUsers_ids_NoDup|].
  apply fmap_sublist, sublist_filter.
Qed.

(** The candidates of [findReplacementReviewer]. *)
Lemma elem_of_replacementCandidates us teamName authorID reviewers u :
  u ∈ replacementCandidates us teamName authorID reviewers
  ↔ replacement teamName authorID reviewers u ∧ ∃ k, us !! k = Some u.
Proof.
  unfold replacementCandidates, replacement.
  rewrite filterReplacementCandidates_filter, !list_elem_of_filter.
  rewrite elem_of_rangeUsers. naive_solver.
Qed.
End range.

(** ** The services on the in-memory repository: what a call returns
    and writes *)

(** Unfolds a service down to the maps of the repository. *)
Ltac run :=
  unfold usecase.CreatePR, usecase.MergePR, usecase.ReassignReviewer,
    usecase.GetUserReviews, usecase.AddTeam, usecase.GetTeam,
    usecase.SetIsActive, usecase.checkPRNotExists, usecase.getAuthor,
    usecase.assignReviewers, usecase.selectRandomReviewers, usecase.getPR,
    usecase.getUser, usecase.checkPRNotMerged, usecase.checkReviewerAssigned,
    usecase.findReplacementReviewer, usecase.replaceReviewer,
    usecase.checkTeamNotExists, usecase.createTeam, usecase.getTeamByName,
    usecase.getTeamMembers, usecase.saveUser,
    bind, ret, fail, readSlice, writeSlice, newSlice; simpl;
  unfold Memory.CreateUser, Memory.UpdateUser, Memory.GetUser,
    Memory.UserExists, Memory.GetUsersByTeam, Memory.GetUsersByIDs,
    Memory.CreateTeam, Memory.GetTeam, Memory.TeamExists,
    Memory.CreatePullRequest, Memory.GetPullRequest,
    Memory.UpdatePullRequest, Memory.GetPullRequestsByReviewer,
    Memory.PRExists; simpl.

Section run.
Context {o : MapOrder}.

Lemma CreatePR_run now rnd prID prName authorID (m : State) :
usecase.CreatePR now rnd prID prName authorID m =
match pullRequests (repo m) !! prID with
| Some _ => (Err ErrAlreadyExists, m)
| None =>
    match users (repo m) !! authorID with
    | None => (Err ErrNotFound, m)
    | Some author =>
        let s := fresh (dom (heap m)) in
        let pr := PullRequest.mk prID prName authorID StatusOpen s
                    now None in
        (Ok pr,
         set_pullRequests <[prID := pr]>
           (mkMem (<[s := assignedTo rnd (users (repo m)) author]> (heap m))
              (repo m)))
    end
end.
Proof.
run. destruct (pullRequests (repo m) !! prID) as [pr0|] eqn:Hpr.
{ by rewrite bool_decide_eq_true_2. }
rewrite bool_decide_eq_false_2 by (by intros [??]).
destruct (users (repo m) !! authorID) as [author|]; [|done].
unfold assignedTo. simpl.
destruct (decide _); simpl; by rewrite Hpr.
Qed.

Lemma MergePR_run now prID (m : State) :
usecase.MergePR now prID m =
match pullRequests (repo m) !! prID with
| None => (Err ErrNotFound, m)
| Some pr =>
    if decide (PullRequest.Status pr = StatusMerged) then (Ok pr, m)
    else
      match pullRequests (repo m) !! PullRequest.PullRequestID pr with
      | None => (Err ErrNotFound, m)
      | Some _ =>
          (Ok (merged now pr),
           set_pullRequests
             <[PullRequest.PullRequestID pr := merged now pr]> m)
      end
end.
Proof.
run. destruct (pullRequests (repo m) !! prID) as [pr|]; [|done].
destruct (decide _); [done|]. simpl.
by destruct (pullRequests (repo m) !! PullRequest.PullRequestID pr).
Qed.

Lemma ReassignReviewer_run rnd prID oldReviewerID (m : State) :
usecase.ReassignReviewer rnd prID oldReviewerID m =
match pullRequests (repo m) !! prID with
| None => (Err ErrNotFound, m)
| Some pr =>
    if decide (PullRequest.Status pr = StatusMerged)
    then (Err ErrPRMerged, m)
    else if decide (oldReviewerID ∈ reviewersOf m pr) then
      match users (repo m) !! oldReviewerID with
      | None => (Err ErrNotFound, m)
      | Some oldReviewer =>
          let candidates :=
            replacementCandidates (users (repo m))
              (User.TeamName oldReviewer) (PullRequest.AuthorID pr)
              (reviewersOf m pr) in
          match candidates !! rand_Intn rnd (length candidates) with
          | None =>
              if decide (length candidates = 0)
              then (Err ErrNoCandidate, m)
              else (Err (ErrOther "index out of range"), m)
          | Some newReviewer =>
              let m' :=
                match list_find (λ id, id = oldReviewerID)
                        (reviewersOf m pr) with
                | Some (i, _) =>
                    mkMem (<[PullRequest.AssignedReviewers pr :=
                               <[i := User.UserID newReviewer]>
                                 (reviewersOf m pr)]> (heap m)) (repo m)
                | None => m
                end in
              match pullRequests (repo m)
                      !! PullRequest.PullRequestID pr with
              | None => (Err ErrNotFound, m')
              | Some _ =>
                  (Ok (pr, User.UserID newReviewer),
                   set_pullRequests
                     <[PullRequest.PullRequestID pr := pr]> m')
              end
          end
      end
    else (Err ErrNotAssigned, m)
end.
Proof.
run. destruct (pullRequests (repo m) !! prID) as [pr|]; [|done].
destruct (decide _); [done|]. simpl.
unfold slices_Contains, reviewersOf.
destruct (decide (oldReviewerID ∈ _)) as [Hin|Hin];
  [rewrite bool_decide_eq_true_2 by done
  |by rewrite bool_decide_eq_false_2 by done].
simpl. destruct (users (repo m) !! oldReviewerID) as [oldReviewer|]; [|done].
simpl. unfold replacementCandidates.
set (candidates := usecase.filterReplacementCandidates _ _ _).
destruct (decide (length candidates = 0)) as [Hl|Hl].
{ simpl. destruct candidates; [done|discriminate]. }
destruct (candidates !! _) as [newReviewer|]; [|done]. simpl.
destruct (list_find _ _) as [[i ?]|]; simpl;
  by destruct (pullRequests (repo m) !! PullRequest.PullRequestID pr).
Qed.
End run.


(** ** The team and user services on the in-memory repository *)

Lemma latest_cons id u members :
  latest id (u :: members)
  = match latest id members with
    | Some v => Some v
    | None => if decide (User.UserID u = id) then Some u else None
    end.
Proof.
  unfold latest. rewrite filter_cons.
  destruct (decide _); [|by destruct (last _)].
  rewrite last_cons. by destruct (last _).
Qed.

Lemma latest_Some id members u :
  latest id members = Some u → u ∈ members ∧ User.UserID u = id.
Proof.
  unfold latest. intros Hl%last_Some_elem_of.
  by apply list_elem_of_filter in Hl as [??].
Qed.

Lemma latest_is_Some id members :
  id ∈ User.UserID <$> members → is_Some (latest id members).
Proof.
  induction members as [|u l IH]; [by intros ?%elem_of_nil|].
  rewrite latest_cons, fmap_cons, elem_of_cons.
  destruct (latest id l); [by eauto|].
  intros [->|Hin]; [by rewrite decide_True|].
  by destruct (IH Hin).
Qed.

Lemma lookup_upsert us members id :
  upsert us members !! id
  = match latest id members with
    | Some u => Some u
    | None => us !! id
    end.
Proof.
  unfold upsert. revert us. induction members as [|u l IH]; intros us; [done|].
  simpl. rewrite IH, latest_cons. destruct (latest id l); [done|].
  rewrite lookup_insert. by destruct (decide _).
Qed.

Section team.
Context {o : MapOrder}.

Lemma createOrUpdateMembers_run members (m : State) :
  usecase.createOrUpdateMembers members m
  = (Ok tt, set_users (λ us, upsert us members) m).
Proof.
  revert m. induction members as [|u l IH]; intros m.
  { by destruct m as [h []]. }
  simpl. run. destruct (users (repo m) !! User.UserID u) as [u0|] eqn:Hu.
  - rewrite bool_decide_eq_true_2 by eauto. simpl. rewrite Hu, IH.
    by destruct m as [h []].
  - rewrite bool_decide_eq_false_2 by (by intros [??]). simpl.
    rewrite Hu, IH. by destruct m as [h []].
Qed.

Lemma AddTeam_run team members (m : State) :
  usecase.AddTeam team members m =
  match teams (repo m) !! Team.TeamName team with
  | Some _ => (Err ErrAlreadyExists, m)
  | None =>
      (Ok team,
       set_teams <[Team.TeamName team := team]>
         (set_users (λ us, upsert us members) m))
  end.
Proof.
  run. destruct (teams (repo m) !! Team.TeamName team) as [t0|] eqn:Ht.
  { by rewrite bool_decide_eq_true_2. }
  rewrite bool_decide_eq_false_2 by (by intros [??]).
  rewrite createOrUpdateMembers_run. simpl. by rewrite Ht.
Qed.

Lemma GetTeam_run teamName (m : State) :
  usecase.GetTeam teamName m =
  match teams (repo m) !! teamName with
  | None => (Err ErrNotFound, m)
  | Some team =>
      (Ok (team, omap (λ id, users (repo m) !! id) (Team.Members team)), m)
  end.
Proof. run. by destruct (teams (repo m) !! teamName). Qed.

Lemma SetIsActive_run userID isActive (m : State) :
  usecase.SetIsActive userID isActive m =
  match users (repo m) !! userID with
  | None => (Err ErrNotFound, m)
  | Some user =>
      let updatedUser := usecase.updateUserActiveStatus user isActive in
      match users (repo m) !! User.UserID user with
      | None => (Err ErrNotFound, m)
      | Some _ =>
          (Ok updatedUser,
           set_users <[User.UserID user := updatedUser]> m)
      end
  end.
Proof.
  run. destruct (users (repo m) !! userID) as [user|]; [|done]. simpl.
  by destruct (users (repo m) !! User.UserID user).
Qed.

Lemma GetUserReviews_run userID (m : State) :
  (usecase.GetUserReviews userID m).2 = m.
Proof. done. Qed.
End team.

(** ** In-place update of a list *)

Lemma elem_of_insert_inv {A} (l : list A) i x y :
  y ∈ <[i := x]> l → y = x ∨ y ∈ l.
Proof.
  intros [j Hj]%list_elem_of_lookup.
  apply list_lookup_insert_Some in Hj as [(_ & -> & _)|[_ Hj]]; [auto|].
  right. apply list_elem_of_lookup. eauto.
Qed.

Lemma NoDup_insert_fresh {A} (l : list A) i x :
  NoDup l → x ∉ l → NoDup (<[i := x]> l).
Proof.
  intros Hl. revert i. induction Hl as [|y l Hy Hl IH]; intros i Hx; [constructor|].
  apply not_elem_of_cons in Hx as [Hxy Hx].
  destruct i as [|i]; simpl.
  - by constructor.
  - constructor; [|by apply IH].
    intros [->|?]%elem_of_insert_inv; done.
Qed.

Lemma not_elem_of_insert_old {A} (l : list A) i x y :
  NoDup l → l !! i = Some y → x ≠ y → y ∉ <[i := x]> l.
Proof.
  intros Hl Hi Hxy [j Hj]%list_elem_of_lookup.
  apply list_lookup_insert_Some in Hj as [(_ & <- & _)|[Hne Hj]]; [done|].
  apply Hne. by eapply NoDup_lookup.
Qed.

(** ** The invariant *)

Lemma Inv_initial : Inv initial.
Proof. split; intros *; simpl; by rewrite ?lookup_empty. Qed.

Lemma upsert_key (us : gmap UUID User.t) members :
  (∀ k u, us !! k = Some u → User.UserID u = k) →
  ∀ k u, upsert us members !! k = Some u → User.UserID u = k.
Proof.
  intros Hkey k u. rewrite lookup_upsert.
  destruct (latest k members) as [v|] eqn:Hv; [|by apply Hkey].
  intros [= ->]. by apply latest_Some in Hv as [_ ?].
Qed.

(** A service that only rewrites user and team records keeps it. *)
Lemma Inv_users_teams (m : State) us ts :
  Inv m →
  (∀ k u, us !! k = Some u → User.UserID u = k) →
  Inv (mkMem (heap m) (mkRepo us ts (pullRequests (repo m)))).
Proof. intros [] Hkey. by split. Qed.

Section invariant.
Context {o : MapOrder} (Ho : MapOrderOk o).

Lemma Inv_AddTeam team members (m : State) :
  Inv m → Inv (usecase.AddTeam team members m).2.
Proof.
  intros Hm. rewrite AddTeam_run.
  destruct (teams (repo m) !! _); [done|]. simpl.
  apply (Inv_users_teams m); [done|].
  apply upsert_key, (inv_user_key m Hm).
Qed.

Lemma Inv_GetTeam teamName (m : State) :
  Inv m → Inv (usecase.GetTeam teamName m).2.
Proof. intros Hm. rewrite GetTeam_run. by destruct (teams (repo m) !! _). Qed.

Lemma Inv_SetIsActive userID isActive (m : State) :
  Inv m → Inv (usecase.SetIsActive userID isActive m).2.
Proof.
  intros Hm. rewrite SetIsActive_run.
  destruct (users (repo m) !! userID) as [user|]; [|done]. simpl.
  destruct (users (repo m) !! User.UserID user); [|done]. simpl.
  apply (Inv_users_teams m); [done|].
  intros k u [[<- <-]|[_ Hk]]%lookup_insert_Some; [done|].
  by apply (inv_user_key m Hm).
Qed.

Lemma Inv_CreatePR now rnd prID prName authorID (m : State) :
  Inv m → Inv (usecase.CreatePR now rnd prID prName authorID m).2.
Proof.
  intros Hm. rewrite CreatePR_run.
  destruct (pullRequests (repo m) !! prID) eqn:Hpr; [done|].
  destruct (users (repo m) !! authorID) as [author|] eqn:Ha; [|done].
  simpl. set (s := fresh (dom (heap m))).
  assert (Hs : heap m !! s = None).
  { apply not_elem_of_dom, is_fresh. }
  assert (Hold : ∀ k pr, pullRequests (repo m) !! k = Some pr →
                         PullRequest.AssignedReviewers pr ≠ s).
  { intros k pr Hk Heq. destruct (inv_alloc m Hm k pr Hk) as [l Hl].
    congruence. }
  split; simpl.
  - apply (inv_user_key m Hm).
  - intros k pr [[<- <-]|[_ Hk]]%lookup_insert_Some; [done|].
    by apply (inv_pr_key m Hm).
  - intros k pr [[<- <-]|[_ Hk]]%lookup_insert_Some;
      [|by apply (inv_merged m Hm k)].
    simpl. split; [by intros [??]|done].
  - intros k pr [[<- <-]|[_ Hk]]%lookup_insert_Some; simpl.
    + rewrite lookup_insert_eq. eauto.
    + rewrite lookup_insert_ne by (symmetry; eauto).
      by apply (inv_alloc m Hm k).
  - intros k1 k2 pr1 pr2
      [[<- <-]|[Hn1 Hk1]]%lookup_insert_Some
      [[<- <-]|[Hn2 Hk2]]%lookup_insert_Some; simpl; try done.
    + intros Heq. by destruct (Hold _ _ Hk2).
    + intros Heq. by destruct (Hold _ _ Hk1).
    + by apply (inv_separate m Hm).
  - intros k pr [[<- <-]|[_ Hk]]%lookup_insert_Some;
      unfold reviewersOf; simpl.
    + rewrite lookup_insert_eq. simpl. split.
      * apply (assignedTo_NoDup Ho), (inv_user_key m Hm).
      * intros (k & u & Hk & Hid & Hel)%(elem_of_assignedTo Ho).
        apply (inv_user_key m Hm) in Ha. destruct Hel as (_ & Hne & _).
        congruence.
    + rewrite lookup_insert_ne by (symmetry; eauto).
      by apply (inv_reviewers m Hm k).
Qed.

Lemma Inv_MergePR now prID (m : State) :
  Inv m → Inv (usecase.MergePR now prID m).2.
Proof.
  intros Hm. rewrite MergePR_run.
  destruct (pullRequests (repo m) !! prID) as [pr|] eqn:Hpr; [|done].
  destruct (decide _) as [|Hopen]; [done|].
  rewrite (inv_pr_key m Hm _ _ Hpr), Hpr. simpl.
  split; simpl.
  - apply (inv_user_key m Hm).
  - intros k pr' [[<- <-]|[_ Hk]]%lookup_insert_Some; simpl;
      by apply (inv_pr_key m Hm).
  - intros k pr' [[<- <-]|[_ Hk]]%lookup_insert_Some; simpl;
      [by eauto|by apply (inv_merged m Hm k)].
  - intros k pr' [[<- <-]|[_ Hk]]%lookup_insert_Some; simpl;
      by eapply (inv_alloc m Hm).
  - intros k1 k2 pr1 pr2
      [[<- <-]|[Hn1 Hk1]]%lookup_insert_Some
      [[<- <-]|[Hn2 Hk2]]%lookup_insert_Some; simpl; try done;
      intros Heq; by eapply (inv_separate m Hm).
  - intros k pr' [[<- <-]|[_ Hk]]%lookup_insert_Some;
      [|by apply (inv_reviewers m Hm k)].
    by apply (inv_reviewers m Hm prID pr).
Qed.
End invariant.

Section reassign.
Context {o : MapOrder} (Ho : MapOrderOk o).

Lemma rand_Intn_lookup {A} rnd (l : list A) :
  length l ≠ 0 → is_Some (l !! rand_Intn rnd (length l)).
Proof.
  intros Hl. apply lookup_lt_is_Some_2. unfold rand_Intn.
  by apply Nat.mod_upper_bound.
Qed.

(** What a reassignment that succeeds found and wrote. *)
Lemma ReassignReviewer_Ok rnd prID oldReviewerID (m m' : State) pr newID :
  Inv m →
  usecase.ReassignReviewer rnd prID oldReviewerID m = (Ok (pr, newID), m') →
  ∃ i oldReviewer newReviewer,
    pullRequests (repo m) !! prID = Some pr
    ∧ PullRequest.Status pr ≠ StatusMerged
    ∧ reviewersOf m pr !! i = Some oldReviewerID
    ∧ users (repo m) !! oldReviewerID = Some oldReviewer
    ∧ newReviewer ∈
        replacementCandidates (users (repo m)) (User.TeamName oldReviewer)
          (PullRequest.AuthorID pr) (reviewersOf m pr)
    ∧ User.UserID newReviewer = newID
    ∧ m' = mkMem
             (<[PullRequest.AssignedReviewers pr :=
                  <[i := newID]> (reviewersOf m pr)]> (heap m))
             (repo m).
Proof.
  intros Hm. rewrite ReassignReviewer_run.
  destruct (pullRequests (repo m) !! prID) as [pr0|] eqn:Hpr; [|done].
  destruct (decide _) as [|Hopen]; [done|].
  destruct (decide _) as [Hin|]; [|done].
  destruct (users (repo m) !! oldReviewerID) as [oldReviewer|] eqn:Hu;
    [|done].
  simpl. set (candidates := replacementCandidates _ _ _ _).
  destruct (candidates !! _) as [newReviewer|] eqn:Hnew;
    [|by destruct (decide _)].
  rewrite (inv_pr_key m Hm _ _ Hpr), Hpr.
  assert (Hsame : ∀ h, set_pullRequests <[prID := pr0]> (mkMem h (repo m))
                       = mkMem h (repo m)).
  { intros h. unfold set_pullRequests. simpl. rewrite insert_id by done.
    by destruct (repo m). }
  destruct (list_find _ _) as [[i x]|] eqn:Hfind.
  - apply list_find_Some in Hfind as (Hi & -> & _).
    rewrite Hsame. intros [= <- <- <-].
    exists i, oldReviewer, newReviewer.
    split_and!; try done.
    apply list_elem_of_lookup. eauto.
  - apply list_find_None in Hfind. by rewrite Forall_forall in Hfind;
      destruct (Hfind _ Hin).
Qed.

(** A reassignment that fails writes nothing. *)
Lemma ReassignReviewer_Err rnd prID oldReviewerID (m m' : State) e :
  Inv m →
  usecase.ReassignReviewer rnd prID oldReviewerID m = (Err e, m') →
  m' = m.
Proof.
  intros Hm. rewrite ReassignReviewer_run.
  destruct (pullRequests (repo m) !! prID) as [pr|] eqn:Hpr;
    [|by intros [= _ <-]].
  destruct (decide _) as [|Hopen]; [by intros [= _ <-]|].
  destruct (decide _) as [Hin|]; [|by intros [= _ <-]].
  destruct (users (repo m) !! oldReviewerID) as [oldReviewer|];
    [|by intros [= _ <-]].
  simpl. set (candidates := replacementCandidates _ _ _ _).
  destruct (candidates !! _) as [newReviewer|];
    [|by destruct (decide _); intros [= _ <-]].
  by rewrite (inv_pr_key m Hm _ _ Hpr), Hpr.
Qed.

(** The index that [findReplacementReviewer] draws is in range: the branch
    that stands for the panic is never taken. *)
Lemma ReassignReviewer_no_panic rnd prID oldReviewerID (m : State) msg :
  (usecase.ReassignReviewer rnd prID oldReviewerID m).1 ≠ Err (ErrOther msg).
Proof.
  rewrite ReassignReviewer_run.
  destruct (pullRequests (repo m) !! prID) as [pr|]; [|done].
  destruct (decide _); [done|]. destruct (decide _); [|done].
  destruct (users (repo m) !! oldReviewerID) as [oldReviewer|]; [|done].
  simpl. set (candidates := replacementCandidates _ _ _ _).
  destruct (decide (length candidates = 0)) as [Hl|Hl].
  - rewrite Hl. destruct candidates; [done|discriminate].
  - destruct (rand_Intn_lookup rnd candidates Hl) as [u ->].
    by destruct (pullRequests (repo m) !! PullRequest.PullRequestID pr).
Qed.

Lemma Inv_ReassignReviewer rnd prID oldReviewerID (m : State) :
  Inv m → Inv (usecase.ReassignReviewer rnd prID oldReviewerID m).2.
Proof.
  intros Hm.
  destruct (usecase.ReassignReviewer rnd prID oldReviewerID m)
    as [[[pr newID]|e] m'] eqn:Hrun; simpl;
    [|by rewrite (ReassignReviewer_Err _ _ _ _ _ _ Hm Hrun)].
  apply (ReassignReviewer_Ok _ _ _ _ _ _ _ Hm) in Hrun
    as (i & oldReviewer & newReviewer
        & Hpr & Hopen & Hi & Hu & Hnew & <- & ->).
  apply (elem_of_replacementCandidates Ho) in Hnew
    as [(_ & _ & Hauthor & Hfresh) _].
  destruct (inv_reviewers m Hm _ _ Hpr) as [Hnodup Hnot].
  split; simpl.
  - apply (inv_user_key m Hm).
  - apply (inv_pr_key m Hm).
  - apply (inv_merged m Hm).
  - intros k pr' Hk.
    destruct (decide (PullRequest.AssignedReviewers pr
                      = PullRequest.AssignedReviewers pr')) as [<-|Hne].
    + rewrite lookup_insert_eq. eauto.
    + rewrite lookup_insert_ne by done. by apply (inv_alloc m Hm k).
  - apply (inv_separate m Hm).
  - intros k pr' Hk. unfold reviewersOf at 1 3. simpl.
    destruct (decide (PullRequest.AssignedReviewers pr
                      = PullRequest.AssignedReviewers pr')) as [Heq|Hne].
    + rewrite <-Heq, lookup_insert_eq. simpl.
      assert (k = prID) as -> by (by eapply (inv_separate m Hm)).
      assert (pr' = pr) as -> by congruence.
      split; [by apply NoDup_insert_fresh|].
      intros [?|?]%elem_of_insert_inv; congruence.
    + rewrite lookup_insert_ne by done. by apply (inv_reviewers m Hm k).
Qed.
End reassign.

Lemma exec_Inv o c m : MapOrderOk o → Inv m → Inv (exec o c m).
Proof.
  intros Ho Hm. destruct c; simpl.
  - by apply Inv_AddTeam.
  - by apply Inv_GetTeam.
  - by apply Inv_SetIsActive.
  - by apply Inv_CreatePR.
  - by apply Inv_MergePR.
  - by apply Inv_ReassignReviewer.
  - done.
Qed.

Lemma reachable_Inv m : reachable m → Inv m.
Proof. induction 1; [apply Inv_initial|by apply exec_Inv]. Qed.

(** ** [AddTeam] over any repository that honours the contract *)

Section contract.
Context {R : Type}.
Context {userRepo : UserRepository R} {teamRepo : TeamRepository R}.

Lemma createOrUpdateMembers_app pre post (m : Mem R) :
  usecase.createOrUpdateMembers (pre ++ post) m
  = match usecase.createOrUpdateMembers pre m with
    | (Ok _, m1) => usecase.createOrUpdateMembers post m1
    | (Err e, m1) => (Err e, m1)
    end.
Proof.
  revert m. induction pre as [|u pre IH]; intros m; [done|].
  simpl. unfold bind.
  destruct (UserExists (User.UserID u) m) as [[b|e] m1]; [|done].
  destruct ((if b then UpdateUser u else CreateUser u) m1)
    as [[[]|e] m2]; [|done].
  apply IH.
Qed.

Context {contract : RepositoryContract R}.

Lemma createOrUpdateMembers_cons_Ok member members (m m' : Mem R) :
  usecase.createOrUpdateMembers (member :: members) m = (Ok tt, m') →
  ∃ m1, (UpdateUser member m = (Ok tt, m1)
         ∨ CreateUser member m = (Ok tt, m1))
        ∧ usecase.createOrUpdateMembers members m1 = (Ok tt, m').
Proof.
  simpl. unfold bind. pose proof (UserExists_reads (User.UserID member) m).
  destruct (UserExists (User.UserID member) m) as [[b|e] m0]; [|done].
  simplify_eq/=.
  destruct b.
  - destruct (UpdateUser member m) as [[[]|e] m1]; [|done]. eauto.
  - destruct (CreateUser member m) as [[[]|e] m1]; [|done]. eauto.
Qed.

Lemma createOrUpdateMembers_one_Err member (m m' : Mem R) e :
  usecase.createOrUpdateMembers [member] m = (Err e, m') → m' = m.
Proof.
  simpl. unfold bind, ret.
  pose proof (UserExists_reads (User.UserID member) m).
  destruct (UserExists (User.UserID member) m) as [[b|e0] m0];
    simplify_eq/=; [|congruence].
  destruct b.
  - destruct (UpdateUser member m) as [[[]|e1] m1] eqn:Hw; [done|].
    intros [= <- <-]. by eapply UpdateUser_fails.
  - destruct (CreateUser member m) as [[[]|e1] m1] eqn:Hw; [done|].
    intros [= <- <-]. by eapply CreateUser_fails.
Qed.

Lemma createOrUpdateMembers_GetUser members (m m' : Mem R) id :
  usecase.createOrUpdateMembers members m = (Ok tt, m') →
  (GetUser id m').1
  = match latest id members with
    | Some u => Ok u
    | None => (GetUser id m).1
    end.
Proof.
  revert m. induction members as [|u l IH]; intros m.
  { by intros [= <-]. }
  intros (m1 & Hw & Hl)%createOrUpdateMembers_cons_Ok.
  rewrite (IH _ Hl), latest_cons. destruct (latest id l); [done|].
  destruct Hw as [Hw|Hw].
  - rewrite (UpdateUser_GetUser _ _ _ id Hw).
    destruct (decide (id = _)), (decide (_ = id)); congruence.
  - rewrite (CreateUser_GetUser _ _ _ id Hw).
    destruct (decide (id = _)), (decide (_ = id)); congruence.
Qed.

Lemma createOrUpdateMembers_TeamExists members (m m' : Mem R) name :
  usecase.createOrUpdateMembers members m = (Ok tt, m') →
  (TeamExists name m').1 = (TeamExists name m).1.
Proof.
  revert m. induction members as [|u l IH]; intros m.
  { by intros [= <-]. }
  intros (m1 & Hw & Hl)%createOrUpdateMembers_cons_Ok.
  rewrite (IH _ Hl). destruct Hw as [Hw|Hw].
  - by rewrite <-(UpdateUser_TeamExists u m name), Hw.
  - by rewrite <-(CreateUser_TeamExists u m name), Hw.
Qed.

(** C7. If the team name is free, the upserts of the members [pre]
    succeed and the upsert of the next member fails with [e], then
    [AddTeam] returns [e] and stops in the memory that the upserts of
    [pre] left: the team does not exist, and the records of [pre] are
    what [GetUser] returns (nothing is rolled back). *)
Theorem AddTeam_member_failure team pre member post e (m m1 m2 : Mem R) :
  (TeamExists (Team.TeamName team) m).1 = Ok false →
  usecase.createOrUpdateMembers pre m = (Ok tt, m1) →
  usecase.createOrUpdateMembers [member] m1 = (Err e, m2) →
  usecase.AddTeam team (pre ++ member :: post) m = (Err e, m1)
  ∧ (TeamExists (Team.TeamName team) m1).1 = Ok false
  ∧ ∀ id u, latest id pre = Some u → (GetUser id m1).1 = Ok u.
Proof.
  intros Hfree Hpre Hfail.
  assert (m2 = m1) as -> by (by eapply createOrUpdateMembers_one_Err).
  split_and!.
  - unfold usecase.AddTeam, usecase.checkTeamNotExists, bind.
    pose proof (TeamExists_reads (Team.TeamName team) m) as Hread.
    destruct (TeamExists (Team.TeamName team) m) as [r m0].
    simpl in Hfree, Hread. subst r m0. simpl. unfold ret at 1.
    rewrite createOrUpdateMembers_app, Hpre.
    change (member :: post) with ([member] ++ post).
    by rewrite createOrUpdateMembers_app, Hfail.
  - by rewrite (createOrUpdateMembers_TeamExists _ _ _ _ Hpre).
  - intros id u Hu.
    by rewrite (createOrUpdateMembers_GetUser _ _ _ id Hpre), Hu.
Qed.
End contract.

(** The in-memory repository honours the contract, and so does the
    write-once variant. *)
Lemma Memory_contract (o : MapOrder) : RepositoryContract MemoryRepository.
Proof.
  split; simpl; unfold Memory.UserExists, Memory.TeamExists,
    Memory.CreateUser, Memory.UpdateUser, Memory.GetUser; try done.
  - intros u m e m'. by destruct (users (repo m) !! _); intros [= <-].
  - intros u m e m'. by destruct (users (repo m) !! _); intros [= <-].
  - intros u m m' id. destruct (users (repo m) !! User.UserID u); [done|].
    intros [= <-]. simpl. rewrite lookup_insert.
    destruct (decide (User.UserID u = id)), (decide (id = User.UserID u));
      try congruence; by destruct (users (repo m) !! id).
  - intros u m m' id. destruct (users (repo m) !! User.UserID u); [|done].
    intros [= <-]. simpl. rewrite lookup_insert.
    destruct (decide (User.UserID u = id)), (decide (id = User.UserID u));
      try congruence; by destruct (users (repo m) !! id).
  - intros u m name. by destruct (users (repo m) !! _).
  - intros u m name. by destruct (users (repo m) !! _).
Qed.

Lemma WriteOnce_contract (o : MapOrder) :
  @RepositoryContract MemoryRepository (WriteOnce.userRepository o) _.
Proof.
  split; simpl; unfold Memory.UserExists, Memory.TeamExists,
    Memory.CreateUser, WriteOnce.UpdateUser, Memory.GetUser, fail; try done.
  - intros u m e m'. by destruct (users (repo m) !! _); intros [= <-].
  - by intros u m e m' [= <-].
  - intros u m m' id. destruct (users (repo m) !! User.UserID u); [done|].
    intros [= <-]. simpl. rewrite lookup_insert.
    destruct (decide (User.UserID u = id)), (decide (id = User.UserID u));
      try congruence; by destruct (users (repo m) !! id).
  - intros u m name. by destruct (users (repo m) !! _).
Qed.

(** ** The pull-request service *)

Lemma stdOrder_ok : MapOrderOk stdOrder.
Proof. by split. Qed.

Section claims.
Context {o : MapOrder} (Ho : MapOrderOk o).

(** C1. On a reachable memory, a [CreatePR] that succeeds has stored the
    pull request with [min(2, n)] reviewers, [n] being the number of
    active users on the team of the author other than the author; the
    author is not among them and they are pairwise distinct, and each
    is such a user.  The only errors are a taken identifier and an
    unknown author: no candidate at all is not an error. *)
Theorem CreatePR_reviewers now rnd prID prName authorID (m : State) :
  reachable m →
  match usecase.CreatePR now rnd prID prName authorID m with
  | (Ok pr, m') =>
      ∃ author,
        users (repo m) !! authorID = Some author
        ∧ pullRequests (repo m') !! prID = Some pr
        ∧ length (reviewersOf m' pr)
          = Nat.min 2 (eligibleCount (users (repo m)) author)
        ∧ (authorID ∉ reviewersOf m' pr)
        ∧ NoDup (reviewersOf m' pr)
        ∧ (∀ id, id ∈ reviewersOf m' pr →
             ∃ u, users (repo m) !! id = Some u ∧ eligible author u)
  | (Err e, m') =>
      m' = m
      ∧ (e = ErrAlreadyExists ∧ is_Some (pullRequests (repo m) !! prID)
         ∨ e = ErrNotFound ∧ users (repo m) !! authorID = None)
  end.
Proof.
  intros Hm%reachable_Inv. rewrite CreatePR_run.
  destruct (pullRequests (repo m) !! prID) eqn:Hpr; [by eauto|].
  destruct (users (repo m) !! authorID) as [author|] eqn:Ha; [|by eauto].
  simpl. exists author. unfold reviewersOf. simpl.
  rewrite !lookup_insert_eq. simpl.
  pose proof (inv_user_key m Hm _ _ Ha) as Hid.
  split_and!; try done.
  - by apply length_assignedTo.
  - intros (k & u & Hk & Hu & Hel)%(elem_of_assignedTo Ho).
    destruct Hel as (_ & Hne & _). congruence.
  - by apply assignedTo_NoDup, (inv_user_key m Hm).
  - intros id (k & u & Hk & Hu & Hel)%(elem_of_assignedTo Ho).
    exists u. split; [|done].
    by rewrite <-Hu, (inv_user_key m Hm _ _ Hk).
Qed.

(** C2. On a reachable memory, a [ReassignReviewer] that succeeds leaves
    the stored pull request with the reviewer list of before in which
    the position of the old reviewer holds the new one: same length,
    every other position unchanged, the old reviewer gone.  The new
    reviewer is an active user on the team of the old one, is not the
    author and was not in the list before. *)
Theorem ReassignReviewer_replaces rnd prID oldReviewerID (m m' : State)
    pr newID :
  reachable m →
  usecase.ReassignReviewer rnd prID oldReviewerID m = (Ok (pr, newID), m') →
  ∃ i oldReviewer newReviewer,
    pullRequests (repo m) !! prID = Some pr
    ∧ pullRequests (repo m') !! prID = Some pr
    ∧ reviewersOf m pr !! i = Some oldReviewerID
    ∧ reviewersOf m' pr = <[i := newID]> (reviewersOf m pr)
    ∧ length (reviewersOf m' pr) = length (reviewersOf m pr)
    ∧ (∀ j, j ≠ i → (reviewersOf m' pr !! j) = (reviewersOf m pr !! j))
    ∧ reviewersOf m' pr !! i = Some newID
    ∧ (oldReviewerID ∉ reviewersOf m' pr)
    ∧ users (repo m) !! oldReviewerID = Some oldReviewer
    ∧ users (repo m) !! newID = Some newReviewer
    ∧ User.IsActive newReviewer = true
    ∧ User.TeamName newReviewer = User.TeamName oldReviewer
    ∧ newID ≠ PullRequest.AuthorID pr
    ∧ newID ∉ reviewersOf m pr.
Proof.
  intros Hm%reachable_Inv Hrun.
  apply (ReassignReviewer_Ok _ _ _ _ _ _ _ Hm) in Hrun
    as (i & oldReviewer & newReviewer
        & Hpr & Hopen & Hi & Hu & Hnew & <- & ->).
  apply (elem_of_replacementCandidates Ho) in Hnew
    as [(Hteam & Hactive & Hauthor & Hfresh) [k Hk]].
  pose proof (inv_user_key m Hm _ _ Hk); subst k.
  destruct (inv_reviewers m Hm _ _ Hpr) as [Hnodup _].
  assert (reviewersOf
            (mkMem (<[PullRequest.AssignedReviewers pr :=
                        <[i := User.UserID newReviewer]> (reviewersOf m pr)]>
                      (heap m)) (repo m)) pr
          = <[i := User.UserID newReviewer]> (reviewersOf m pr)) as ->.
  { unfold reviewersOf at 1. simpl. by rewrite lookup_insert_eq. }
  exists i, oldReviewer, newReviewer. split_and!; try done.
  - apply length_insert.
  - intros j Hj. by apply list_lookup_insert_ne.
  - apply list_lookup_insert_eq. by eapply lookup_lt_Some.
  - apply not_elem_of_insert_old; [done..|].
    intros Heq. apply Hfresh. rewrite Heq.
    apply list_elem_of_lookup. eauto.
Qed.

(** C3. When the pull request is open, the old reviewer is assigned and
    known, and every active user on the team of the old reviewer is the
    author or already a reviewer, [ReassignReviewer] fails with
    [ErrNoCandidate] and the memory is the one of before. *)
Theorem ReassignReviewer_NoCandidate rnd prID oldReviewerID (m : State)
    pr oldReviewer :
  pullRequests (repo m) !! prID = Some pr →
  PullRequest.Status pr ≠ StatusMerged →
  oldReviewerID ∈ reviewersOf m pr →
  users (repo m) !! oldReviewerID = Some oldReviewer →
  map_Forall (λ _ u,
      User.TeamName u = User.TeamName oldReviewer →
      User.IsActive u = true →
      User.UserID u = PullRequest.AuthorID pr
      ∨ User.UserID u ∈ reviewersOf m pr)
    (users (repo m)) →
  usecase.ReassignReviewer rnd prID oldReviewerID m = (Err ErrNoCandidate, m).
Proof.
  intros Hpr Hopen Hin Hu Hall. rewrite ReassignReviewer_run, Hpr.
  rewrite decide_False, decide_True, Hu by done. simpl.
  assert (replacementCandidates (users (repo m)) (User.TeamName oldReviewer)
            (PullRequest.AuthorID pr) (reviewersOf m pr) = []) as ->.
  { apply elem_of_nil_inv. intros u.
    rewrite (elem_of_replacementCandidates Ho).
    intros [(Hteam & Hactive & Hauthor & Hfresh) [k Hk]].
    destruct (Hall _ _ Hk Hteam Hactive); done. }
  done.
Qed.

(** C4. [ReassignReviewer] returns the error of the first precondition
    that fails, in the order: the pull request exists, it is not merged,
    the old reviewer is assigned, the old reviewer is a known user; the
    memory is the one of before. *)
Theorem ReassignReviewer_preconditions rnd prID oldReviewerID (m : State) e :
  reassignPrecondition m prID oldReviewerID = Some e →
  usecase.ReassignReviewer rnd prID oldReviewerID m = (Err e, m).
Proof.
  unfold reassignPrecondition. rewrite ReassignReviewer_run.
  destruct (pullRequests (repo m) !! prID) as [pr|]; [|by intros [= <-]].
  destruct (decide _); [by intros [= <-]|].
  destruct (decide _); [|by intros [= <-]].
  by destruct (users (repo m) !! oldReviewerID); [|intros [= <-]].
Qed.
End claims.

Lemma omap_lookup_ids (us : gmap UUID User.t) (ids : list UUID) :
  (∀ k u, us !! k = Some u → User.UserID u = k) →
  User.UserID <$> omap (λ id, us !! id) ids
  = filter (λ id, is_Some (us !! id)) ids.
Proof.
  intros Hkey. induction ids as [|id ids IH]; [done|].
  rewrite filter_cons. csimpl. destruct (us !! id) as [u|] eqn:Hu.
  - rewrite decide_True by eauto. csimpl. by rewrite IH, (Hkey _ _ Hu).
  - rewrite decide_False by (by intros [??]). done.
Qed.

Lemma filter_all {A} (P : A → Prop) `{!∀ x, Decision (P x)} (l : list A) :
  Forall P l → filter P l = l.
Proof.
  induction 1 as [|x l Hx _ IH]; [done|].
  by rewrite filter_cons_True, IH.
Qed.

Section claims_merge_team.
Context {o : MapOrder} (Ho : MapOrderOk o).

(** C5. [MergePR] on a pull request that is already merged returns the
    stored pull request and leaves the memory as it is, without error.
    On a reachable memory [MergePR] of a stored pull request succeeds,
    and a second [MergePR], at any later time, returns the same pull
    request (the same status and merge time) and writes nothing. *)
Theorem MergePR_idempotent prID (m : State) pr :
  pullRequests (repo m) !! prID = Some pr →
  (PullRequest.Status pr = StatusMerged →
   ∀ now, usecase.MergePR now prID m = (Ok pr, m))
  ∧ (reachable m →
     ∀ now, ∃ pr1 m1,
       usecase.MergePR now prID m = (Ok pr1, m1)
       ∧ pullRequests (repo m1) !! prID = Some pr1
       ∧ PullRequest.Status pr1 = StatusMerged
       ∧ is_Some (PullRequest.MergedAt pr1)
       ∧ ∀ now', usecase.MergePR now' prID m1 = (Ok pr1, m1)).
Proof.
  intros Hpr. split.
  - intros Hmerged now. by rewrite MergePR_run, Hpr, decide_True.
  - intros Hm%reachable_Inv now. rewrite MergePR_run, Hpr.
    destruct (decide _) as [Hmerged|Hopen].
    + exists pr, m. split_and!; try done.
      * by apply (inv_merged m Hm prID).
      * intros now'. by rewrite MergePR_run, Hpr, decide_True.
    + rewrite (inv_pr_key m Hm _ _ Hpr), Hpr.
      eexists _, _. split_and!; try done.
      * simpl. by rewrite lookup_insert_eq.
      * intros now'. rewrite MergePR_run. simpl.
        by rewrite lookup_insert_eq.
Qed.

(** C6. In every reachable memory a stored pull request has a merge time
    if and only if its status is [StatusMerged].  [CreatePR] stores an
    open pull request without merge time, [MergePR] returns and stores
    one that is merged and has a merge time, and [ReassignReviewer] runs
    on a pull request that is not merged and stores the same record. *)
Theorem MergedAt_iff_Merged (m : State) :
  reachable m →
  (∀ prID pr, pullRequests (repo m) !! prID = Some pr →
     is_Some (PullRequest.MergedAt pr)
     ↔ PullRequest.Status pr = StatusMerged)
  ∧ (∀ now rnd prID prName authorID pr m',
       usecase.CreatePR now rnd prID prName authorID m = (Ok pr, m') →
       pullRequests (repo m') !! prID = Some pr
       ∧ PullRequest.Status pr = StatusOpen
       ∧ PullRequest.MergedAt pr = None)
  ∧ (∀ now prID pr m',
       usecase.MergePR now prID m = (Ok pr, m') →
       pullRequests (repo m') !! prID = Some pr
       ∧ PullRequest.Status pr = StatusMerged
       ∧ is_Some (PullRequest.MergedAt pr))
  ∧ (∀ rnd prID oldReviewerID pr newID m',
       usecase.ReassignReviewer rnd prID oldReviewerID m
         = (Ok (pr, newID), m') →
       pullRequests (repo m) !! prID = Some pr
       ∧ pullRequests (repo m') !! prID = Some pr
       ∧ PullRequest.Status pr ≠ StatusMerged).
Proof.
  intros Hm%reachable_Inv. split_and!.
  - apply (inv_merged m Hm).
  - intros now rnd prID prName authorID pr m'. rewrite CreatePR_run.
    destruct (pullRequests (repo m) !! prID); [done|].
    destruct (users (repo m) !! authorID); [|done].
    intros [= <- <-]. simpl. by rewrite lookup_insert_eq.
  - intros now prID pr m'. rewrite MergePR_run.
    destruct (pullRequests (repo m) !! prID) as [pr0|] eqn:Hpr; [|done].
    destruct (decide _) as [Hmerged|Hopen].
    + intros [= <- <-]. split_and!; try done.
      by apply (inv_merged m Hm prID).
    + rewrite (inv_pr_key m Hm _ _ Hpr), Hpr. intros [= <- <-]. simpl.
      rewrite lookup_insert_eq. eauto.
  - intros rnd prID oldReviewerID pr newID m' Hrun.
    apply (ReassignReviewer_Ok _ _ _ _ _ _ _ Hm) in Hrun
      as (i & oldReviewer & newReviewer & Hpr & Hopen & _ & _ & _ & _ & ->).
    done.
Qed.

(** C8. After an [AddTeam] that succeeds, [GetTeam] of the name succeeds
    and returns the team as it was given, with the user records of its
    member identifiers in their order; an identifier without a user
    record is left out.  The record of every member supplied is the one
    supplied last for its identifier; so, when the member identifiers of
    the team are those of the members supplied, the users returned have
    exactly these identifiers and each is the record supplied last. *)
Theorem AddTeam_GetTeam team members (m m1 : State) t :
  reachable m →
  usecase.AddTeam team members m = (Ok t, m1) →
  t = team
  ∧ ∃ us,
      usecase.GetTeam (Team.TeamName team) m1 = (Ok (team, us), m1)
      ∧ us = omap (λ id, users (repo m1) !! id) (Team.Members team)
      ∧ User.UserID <$> us
        = filter (λ id, is_Some (users (repo m1) !! id)) (Team.Members team)
      ∧ (∀ u, u ∈ members →
           users (repo m1) !! User.UserID u = latest (User.UserID u) members)
      ∧ (Team.Members team = User.UserID <$> members →
         User.UserID <$> us = Team.Members team
         ∧ ∀ u, u ∈ us → latest (User.UserID u) members = Some u).
Proof.
  intros Hm%reachable_Inv. rewrite AddTeam_run.
  destruct (teams (repo m) !! Team.TeamName team) eqn:Ht; [done|].
  intros [= <- <-]. split; [done|]. rewrite GetTeam_run. simpl.
  rewrite lookup_insert_eq. eexists. split; [done|]. split; [done|].
  assert (Hkey : ∀ k u, upsert (users (repo m)) members !! k = Some u →
                        User.UserID u = k).
  { apply upsert_key, (inv_user_key m Hm). }
  assert (Hlatest : ∀ u, u ∈ members →
            upsert (users (repo m)) members !! User.UserID u
            = latest (User.UserID u) members).
  { intros u Hu. rewrite lookup_upsert.
    destruct (latest_is_Some (User.UserID u) members) as [v ->]; [|done].
    apply list_elem_of_fmap. eauto. }
  split_and!; [by apply omap_lookup_ids|done|].
  intros ->. split.
  - rewrite omap_lookup_ids by done. apply filter_all.
    apply Forall_forall. intros id (u & -> & Hu)%list_elem_of_fmap.
    rewrite Hlatest by done. apply latest_is_Some, list_elem_of_fmap. eauto.
  - intros u (id & (v & -> & Hv)%list_elem_of_fmap & Hu)%list_elem_of_omap.
    rewrite (Hlatest _ Hv) in Hu.
    by destruct (latest_Some _ _ _ Hu) as [_ ->].
Qed.

(** C9. [CreatePR] with a free identifier and an author that exists
    succeeds, whatever the active flag of the author. *)
Theorem CreatePR_any_author now rnd prID prName authorID (m : State)
    author :
  users (repo m) !! authorID = Some author →
  pullRequests (repo m) !! prID = None →
  ∃ pr m',
    usecase.CreatePR now rnd prID prName authorID m = (Ok pr, m')
    ∧ PullRequest.AuthorID pr = authorID
    ∧ pullRequests (repo m') !! prID = Some pr.
Proof.
  intros Ha Hpr. rewrite CreatePR_run, Hpr, Ha. eexists _, _.
  split; [done|]. simpl. by rewrite lookup_insert_eq.
Qed.

(** C10. [AddTeam] with a free team name succeeds whatever identifiers
    repeat in the member list, and the record stored for an identifier
    is the one supplied last for it.  A member whose identifier has no
    record is created, a member whose identifier has one is updated, and
    after either the identifier has a record. *)
Theorem AddTeam_duplicate_members team members (m : State) :
  teams (repo m) !! Team.TeamName team = None →
  (∃ m',
     usecase.AddTeam team members m = (Ok team, m')
     ∧ ∀ id, users (repo m') !! id
             = match latest id members with
               | Some u => Some u
               | None => users (repo m) !! id
               end)
  ∧ ∀ member (m0 : State),
      let m1 := set_users <[User.UserID member := member]> m0 in
      usecase.createOrUpdateMembers [member] m0 = (Ok tt, m1)
      ∧ is_Some (users (repo m1) !! User.UserID member)
      ∧ match users (repo m0) !! User.UserID member with
        | None => CreateUser member m0 = (Ok tt, m1)
        | Some _ => UpdateUser member m0 = (Ok tt, m1)
        end.
Proof.
  intros Ht. split.
  - rewrite AddTeam_run, Ht. eexists. split; [done|].
    intros id. simpl. apply lookup_upsert.
  - intros member m0 m1. split_and!.
    + rewrite createOrUpdateMembers_run. by destruct m0 as [h []].
    + simpl. rewrite lookup_insert_eq. eauto.
    + simpl. unfold Memory.CreateUser, Memory.UpdateUser.
      by destruct (users (repo m0) !! User.UserID member).
Qed.
End claims_merge_team.


(** * Further properties *)

Lemma evolves_reachable m m' : reachable m → evolves m m' → reachable m'.
Proof. induction 2; [done|by apply reachable_exec]. Qed.

(** ** What one request changes *)

Section frames.
Context {o : MapOrder} (Ho : MapOrderOk o).

Lemma reviewersOf_heap (m m' : State) pr :
  heap m' = heap m → reviewersOf m' pr = reviewersOf m pr.
Proof. unfold reviewersOf. by intros ->. Qed.

(** X1. On a reachable memory [SetIsActive] of a known user returns and
    stores the record of that user with the active flag as given and the
    other fields as they were, and touches no other user, no team, no pull
    request and no reviewer list; of an unknown user it fails with
    [ErrNotFound] and writes nothing. *)
Theorem SetIsActive_outcome userID isActive (m : State) :
  reachable m →
  match usecase.SetIsActive userID isActive m with
  | (Ok updated, m') =>
      ∃ user,
        users (repo m) !! userID = Some user
        ∧ updated = User.mk userID (User.Username user)
                      (User.TeamName user) isActive
        ∧ users (repo m') = <[userID := updated]> (users (repo m))
        ∧ teams (repo m') = teams (repo m)
        ∧ pullRequests (repo m') = pullRequests (repo m)
        ∧ heap m' = heap m
  | (Err e, m') =>
      e = ErrNotFound ∧ users (repo m) !! userID = None ∧ m' = m
  end.
Proof.
  intros Hm%reachable_Inv. rewrite SetIsActive_run.
  destruct (users (repo m) !! userID) as [user|] eqn:Hu; [|done].
  simpl. pose proof (inv_user_key m Hm _ _ Hu) as Hid.
  rewrite Hid, Hu. exists user. unfold usecase.updateUserActiveStatus.
  by rewrite Hid.
Qed.

(** X2. [CreatePR] with an identifier that is taken fails with
    [ErrAlreadyExists] and writes nothing, whether the author exists or
    not: the identifier is checked first. *)
Theorem CreatePR_duplicate now rnd prID prName authorID (m : State) pr0 :
  pullRequests (repo m) !! prID = Some pr0 →
  usecase.CreatePR now rnd prID prName authorID m = (Err ErrAlreadyExists, m).
Proof. intros Hpr. by rewrite CreatePR_run, Hpr. Qed.

(** X3. On a reachable memory a [CreatePR] that succeeds took a free
    identifier, returns a pull request with the identifier, name and author
    of the call and the time of the call, and adds this one entry: users,
    teams, the other pull requests and their reviewer lists stay as they
    were. *)
Theorem CreatePR_frame now rnd prID prName authorID (m m' : State) pr :
  reachable m →
  usecase.CreatePR now rnd prID prName authorID m = (Ok pr, m') →
  pullRequests (repo m) !! prID = None
  ∧ PullRequest.PullRequestID pr = prID
  ∧ PullRequest.PullRequestName pr = prName
  ∧ PullRequest.AuthorID pr = authorID
  ∧ PullRequest.CreatedAt pr = now
  ∧ users (repo m') = users (repo m)
  ∧ teams (repo m') = teams (repo m)
  ∧ pullRequests (repo m') = <[prID := pr]> (pullRequests (repo m))
  ∧ ∀ k pr0, pullRequests (repo m) !! k = Some pr0 →
      reviewersOf m' pr0 = reviewersOf m pr0.
Proof.
  intros Hm%reachable_Inv. rewrite CreatePR_run.
  destruct (pullRequests (repo m) !! prID) eqn:Hpr; [done|].
  destruct (users (repo m) !! authorID) as [author|]; [|done].
  intros [= <- <-]. simpl. split_and!; try done.
  intros k pr0 Hk. unfold reviewersOf. simpl.
  rewrite lookup_insert_ne; [done|]. intros Heq.
  destruct (inv_alloc m Hm _ _ Hk) as [l Hl].
  rewrite <-Heq in Hl.
  by rewrite (proj1 (not_elem_of_dom _ _) (is_fresh (dom (heap m)))) in Hl.
Qed.

(** X4. On a reachable memory, when at most two users are eligible for the
    author, [CreatePR] assigns all of them: the reviewers are exactly the
    eligible users. *)
Theorem CreatePR_assigns_all now rnd prID prName authorID (m m' : State)
    pr author :
  reachable m →
  usecase.CreatePR now rnd prID prName authorID m = (Ok pr, m') →
  users (repo m) !! authorID = Some author →
  eligibleCount (users (repo m)) author ≤ 2 →
  ∀ id, id ∈ reviewersOf m' pr
        ↔ ∃ u, users (repo m) !! id = Some u ∧ eligible author u.
Proof.
  intros Hm%reachable_Inv. rewrite CreatePR_run.
  destruct (pullRequests (repo m) !! prID) eqn:Hpr; [done|].
  intros Hrun Ha Hcount. rewrite Ha in Hrun. injection Hrun as <- <-.
  intros id. unfold reviewersOf. simpl. rewrite lookup_insert_eq. simpl.
  split.
  - intros (k & u & Hk & Hu & Hel)%(elem_of_assignedTo Ho).
    exists u. by rewrite <-Hu, (inv_user_key m Hm _ _ Hk).
  - intros (u & Hu & Hel). rewrite assignedTo_take.
    rewrite firstn_all2.
    + apply list_elem_of_fmap. exists u.
      split; [symmetry; by apply (inv_user_key m Hm)|].
      rewrite (rand_Shuffle_Permutation rnd).
      apply list_elem_of_filter. split; [done|].
      apply (elem_of_rangeUsers Ho). eauto.
    + rewrite (rand_Shuffle_Permutation rnd).
      rewrite (length_filter_rangeUsers Ho). unfold eligibleCount in Hcount.
      lia.
Qed.

(** X5. On a reachable memory, when the pull request is open, the old
    reviewer is assigned and known, and some user is a replacement
    candidate, [ReassignReviewer] succeeds, whatever the random draw. *)
Theorem ReassignReviewer_progress rnd prID oldReviewerID (m : State)
    pr oldReviewer k candidate :
  reachable m →
  pullRequests (repo m) !! prID = Some pr →
  PullRequest.Status pr ≠ StatusMerged →
  oldReviewerID ∈ reviewersOf m pr →
  users (repo m) !! oldReviewerID = Some oldReviewer →
  users (repo m) !! k = Some candidate →
  replacement (User.TeamName oldReviewer) (PullRequest.AuthorID pr)
    (reviewersOf m pr) candidate →
  ∃ newID m',
    usecase.ReassignReviewer rnd prID oldReviewerID m = (Ok (pr, newID), m').
Proof.
  intros Hm%reachable_Inv Hpr Hopen Hin Hu Hk Hcand.
  rewrite ReassignReviewer_run, Hpr.
  rewrite decide_False, decide_True, Hu by done. simpl.
  set (candidates := replacementCandidates _ _ _ _).
  assert (Hne : length candidates ≠ 0).
  { assert (candidate ∈ candidates) as Hc
      by (apply (elem_of_replacementCandidates Ho); eauto).
    destruct candidates; [by apply elem_of_nil in Hc|done]. }
  destruct (rand_Intn_lookup rnd candidates Hne) as [u ->].
  rewrite (inv_pr_key m Hm _ _ Hpr), Hpr. eauto.
Qed.

(** X6. On a reachable memory a [ReassignReviewer] that succeeds leaves
    the three maps of the repository as they were and writes the reviewer
    list of this pull request only: the reviewers of every other pull
    request stay as they were. *)
Theorem ReassignReviewer_frame rnd prID oldReviewerID (m m' : State)
    pr newID :
  reachable m →
  usecase.ReassignReviewer rnd prID oldReviewerID m = (Ok (pr, newID), m') →
  repo m' = repo m
  ∧ ∀ k pr0, pullRequests (repo m) !! k = Some pr0 → k ≠ prID →
      reviewersOf m' pr0 = reviewersOf m pr0.
Proof.
  intros Hm%reachable_Inv Hrun.
  apply (ReassignReviewer_Ok _ _ _ _ _ _ _ Hm) in Hrun
    as (i & oldReviewer & newReviewer & Hpr & _ & _ & _ & _ & _ & ->).
  split; [done|]. intros k pr0 Hk Hne. unfold reviewersOf. simpl.
  rewrite lookup_insert_ne; [done|]. intros Heq. apply Hne. symmetry.
  by apply (inv_separate m Hm _ _ _ _ Hpr Hk).
Qed.

(** X7. On a reachable memory [MergePR] of a stored pull request returns
    and stores it with the status merged; the merge time is the time of
    the call when it was open and the earlier one when it was merged
    already; the other fields, the reviewers and the rest of the memory
    stay as they were.  Of an unknown pull request it fails with
    [ErrNotFound] and writes nothing. *)
Theorem MergePR_outcome now prID (m : State) :
  reachable m →
  match usecase.MergePR now prID m with
  | (Ok pr', m') =>
      ∃ pr,
        pullRequests (repo m) !! prID = Some pr
        ∧ pr' = PullRequest.mk prID (PullRequest.PullRequestName pr)
                  (PullRequest.AuthorID pr) StatusMerged
                  (PullRequest.AssignedReviewers pr)
                  (PullRequest.CreatedAt pr)
                  (if decide (PullRequest.Status pr = StatusMerged)
                   then PullRequest.MergedAt pr else Some now)
        ∧ m' = set_pullRequests <[prID := pr']> m
  | (Err e, m') =>
      e = ErrNotFound ∧ pullRequests (repo m) !! prID = None ∧ m' = m
  end.
Proof.
  intros Hm%reachable_Inv. rewrite MergePR_run.
  destruct (pullRequests (repo m) !! prID) as [pr|] eqn:Hpr; [|done].
  pose proof (inv_pr_key m Hm _ _ Hpr) as Hid.
  destruct (decide (PullRequest.Status pr = StatusMerged))
    as [Hmerged|Hopen].
  - exists pr. split; [done|]. split.
    + destruct pr; simpl in *. by subst.
    + unfold set_pullRequests. rewrite insert_id by done.
      by destruct m as [h []].
  - rewrite Hid, Hpr. exists pr. unfold merged.
    by rewrite Hid, (decide_False (P := _ = StatusMerged)).

Qed.

(** X8. After a [MergePR] that succeeds on a reachable memory, every
    [ReassignReviewer] on that pull request fails with [ErrPRMerged] and
    writes nothing. *)
Theorem MergePR_then_ReassignReviewer now prID (m m1 : State) pr :
  reachable m →
  usecase.MergePR now prID m = (Ok pr, m1) →
  ∀ rnd oldReviewerID,
    usecase.ReassignReviewer rnd prID oldReviewerID m1
    = (Err ErrPRMerged, m1).
Proof.
  intros Hm%reachable_Inv. rewrite MergePR_run.
  destruct (pullRequests (repo m) !! prID) as [pr0|] eqn:Hpr; [|done].
  destruct (decide _) as [Hmerged|Hopen].
  - intros [= <- <-] rnd oldReviewerID.
    by rewrite ReassignReviewer_run, Hpr, decide_True.
  - rewrite (inv_pr_key m Hm _ _ Hpr), Hpr.
    intros [= <- <-] rnd oldReviewerID.
    rewrite ReassignReviewer_run. simpl. by rewrite lookup_insert_eq.
Qed.
End frames.

(** ** What every request keeps *)

Lemma keeps_refl m pr : keeps m pr m pr.
Proof. by repeat split. Qed.

Lemma keeps_trans m1 pr1 m2 pr2 m3 pr3 :
  keeps m1 pr1 m2 pr2 → keeps m2 pr2 m3 pr3 → keeps m1 pr1 m3 pr3.
Proof.
  intros (Ha1&Hb1&Hc1&Hd1&He1&Hf1&Hg1) (Ha2&Hb2&Hc2&Hd2&He2&Hf2&Hg2).
  split_and!; try congruence. intros Hmerged.
  destruct (Hg1 Hmerged) as [-> Hr1]. destruct (Hg2 Hmerged) as [-> Hr2].
  split; congruence.
Qed.

Lemma keeps_same_pullRequests (m m' : State) pr :
  heap m' = heap m → keeps m pr m' pr.
Proof.
  intros Hh. unfold keeps. rewrite (reviewersOf_heap m m' pr Hh).
  by repeat split.
Qed.

Section steps.
Context {o : MapOrder} (Ho : MapOrderOk o).

Lemma AddTeam_frame team members (m : State) :
  heap (usecase.AddTeam team members m).2 = heap m
  ∧ pullRequests (repo (usecase.AddTeam team members m).2)
    = pullRequests (repo m).
Proof. rewrite AddTeam_run. by destruct (teams (repo m) !! _). Qed.

Lemma SetIsActive_frame userID isActive (m : State) :
  heap (usecase.SetIsActive userID isActive m).2 = heap m
  ∧ pullRequests (repo (usecase.SetIsActive userID isActive m).2)
    = pullRequests (repo m).
Proof.
  rewrite SetIsActive_run. destruct (users (repo m) !! userID); [|done].
  simpl. by destruct (users (repo m) !! _).
Qed.

Lemma GetTeam_frame teamName (m : State) :
  (usecase.GetTeam teamName m).2 = m.
Proof. rewrite GetTeam_run. by destruct (teams (repo m) !! _). Qed.

Lemma CreatePR_fresh_slice (m : State) k pr :
  Inv m → pullRequests (repo m) !! k = Some pr →
  PullRequest.AssignedReviewers pr ≠ fresh (dom (heap m)).
Proof.
  intros Hm Hk Heq. destruct (inv_alloc m Hm _ _ Hk) as [l Hl].
  rewrite Heq in Hl.
  by rewrite (proj1 (not_elem_of_dom _ _) (is_fresh (dom (heap m)))) in Hl.
Qed.

(** One request keeps every stored pull request. *)
Lemma exec_keeps c (m : State) k pr :
  Inv m → pullRequests (repo m) !! k = Some pr →
  ∃ pr', pullRequests (repo (exec o c m)) !! k = Some pr'
         ∧ keeps m pr (exec o c m) pr'.
Proof.
  intros Hm Hk. destruct c; simpl.
  - destruct (AddTeam_frame team members m) as [Hh Hp].
    exists pr. rewrite Hp. split; [done|]. by apply keeps_same_pullRequests.
  - rewrite GetTeam_frame. exists pr. split; [done|apply keeps_refl].
  - destruct (SetIsActive_frame userID isActive m) as [Hh Hp].
    exists pr. rewrite Hp. split; [done|]. by apply keeps_same_pullRequests.
  - rewrite CreatePR_run.
    destruct (pullRequests (repo m) !! prID) eqn:Hpr;
      [exists pr; split; [done|apply keeps_refl]|].
    destruct (users (repo m) !! authorID);
      [|exists pr; split; [done|apply keeps_refl]].
    simpl. exists pr. rewrite lookup_insert_ne by congruence.
    split; [done|]. unfold keeps, reviewersOf. simpl.
    rewrite lookup_insert_ne
      by (symmetry; by eapply CreatePR_fresh_slice).
    by repeat split.
  - rewrite MergePR_run.
    destruct (pullRequests (repo m) !! prID) as [pr0|] eqn:Hpr;
      [|exists pr; split; [done|apply keeps_refl]].
    destruct (decide _) as [|Hopen];
      [exists pr; split; [done|apply keeps_refl]|].
    rewrite (inv_pr_key m Hm _ _ Hpr), Hpr. simpl.
    destruct (decide (k = prID)) as [->|Hne].
    + rewrite lookup_insert_eq. eexists. split; [done|].
      assert (pr0 = pr) as -> by congruence.
      unfold keeps, merged, reviewersOf. simpl. by repeat split.
    + rewrite lookup_insert_ne by done. exists pr. split; [done|].
      by apply keeps_same_pullRequests.
  - destruct (usecase.ReassignReviewer rnd prID oldReviewerID m)
      as [[[pr0 newID]|e] m'] eqn:Hrun; simpl.
    + apply (ReassignReviewer_Ok _ _ _ _ _ _ _ Hm) in Hrun
        as (i & oldReviewer & newReviewer & Hpr & Hopen & _ & _ & _ & _ & ->).
      simpl. exists pr. split; [done|].
      unfold keeps, reviewersOf. simpl.
      destruct (decide (PullRequest.AssignedReviewers pr0
                        = PullRequest.AssignedReviewers pr)) as [Heq|Hne].
      * assert (prID = k) as -> by (by eapply (inv_separate m Hm)).
        assert (pr0 = pr) as -> by congruence.
        rewrite lookup_insert_eq. simpl. rewrite length_insert.
        by repeat split.
      * rewrite !lookup_insert_ne by done. by repeat split.
    + rewrite (ReassignReviewer_Err _ _ _ _ _ _ Hm Hrun).
      exists pr. split; [done|apply keeps_refl].
  - exists pr. split; [done|apply keeps_refl].
Qed.

(** One request keeps the users and the teams. *)
Lemma exec_users_teams c (m : State) :
  (∀ k, is_Some (users (repo m) !! k) →
        is_Some (users (repo (exec o c m)) !! k))
  ∧ (∀ name team, teams (repo m) !! name = Some team →
        teams (repo (exec o c m)) !! name = Some team).
Proof.
  destruct c; simpl.
  - rewrite AddTeam_run.
    destruct (teams (repo m) !! Team.TeamName team) eqn:Ht; [done|].
    simpl. split.
    + intros k [u Hu]. rewrite lookup_upsert, Hu.
      destruct (latest k members); eauto.
    + intros name t Hname. rewrite lookup_insert_ne; [done|]. congruence.
  - by rewrite GetTeam_frame.
  - rewrite SetIsActive_run.
    destruct (users (repo m) !! userID) as [user|]; [|done]. simpl.
    destruct (users (repo m) !! User.UserID user); [|done]. simpl.
    split; [|done]. intros k Hk. rewrite lookup_insert.
    destruct (decide _); eauto.
  - rewrite CreatePR_run. destruct (pullRequests (repo m) !! prID); [done|].
    by destruct (users (repo m) !! authorID).
  - rewrite MergePR_run.
    destruct (pullRequests (repo m) !! prID) as [pr|]; [|done].
    destruct (decide _); [done|].
    by destruct (pullRequests (repo m) !! PullRequest.PullRequestID pr).
  - rewrite ReassignReviewer_run.
    destruct (pullRequests (repo m) !! prID) as [pr|]; [|done].
    destruct (decide _); [done|]. destruct (decide _); [|done].
    destruct (users (repo m) !! oldReviewerID); [|done]. simpl.
    set (candidates := replacementCandidates _ _ _ _).
    destruct (candidates !! _); [|by destruct (decide _)].
    destruct (list_find _ _) as [[??]|];
      by destruct (pullRequests (repo m) !! PullRequest.PullRequestID pr).
  - done.
Qed.
End steps.

Lemma evolves_keeps (m m' : State) k pr :
  reachable m → evolves m m' →
  pullRequests (repo m) !! k = Some pr →
  ∃ pr', pullRequests (repo m') !! k = Some pr' ∧ keeps m pr m' pr'.
Proof.
  intros Hm Hev Hk. induction Hev as [|o c m' Ho Hev (pr1 & Hk1 & Hkeep)].
  - exists pr. split; [done|apply keeps_refl].
  - pose proof (reachable_Inv _ (evolves_reachable _ _ Hm Hev)) as Hm'.
    destruct (exec_keeps (o:=o) c m' k pr1 Hm' Hk1) as (pr2 & Hk2 & Hkeep2).
    exists pr2. split; [done|]. by eapply keeps_trans.
Qed.

Section known.
Context {o : MapOrder} (Ho : MapOrderOk o).

Lemma exec_reviewersKnown c (m : State) :
  Inv m → reviewersKnown m → reviewersKnown (exec o c m).
Proof.
  intros Hm Hknown.
  assert (Hsame : ∀ m' : State,
            heap m' = heap m →
            pullRequests (repo m') = pullRequests (repo m) →
            (∀ k, is_Some (users (repo m) !! k) →
                  is_Some (users (repo m') !! k)) →
            reviewersKnown m').
  { intros m' Hh Hp Hu k pr. rewrite Hp, (reviewersOf_heap m m' pr Hh).
    intros Hk. destruct (Hknown k pr Hk) as [Hlen Hin].
    split; [done|]. intros id Hid. by apply Hu, Hin. }
  destruct c; simpl.
  - destruct (AddTeam_frame team members m) as [Hh Hp].
    apply Hsame; [done..|].
    apply (exec_users_teams (o:=o) (Call.AddTeam team members) m).
  - by rewrite GetTeam_frame.
  - destruct (SetIsActive_frame userID isActive m) as [Hh Hp].
    apply Hsame; [done..|].
    apply (exec_users_teams (o:=o) (Call.SetIsActive userID isActive) m).
  - rewrite CreatePR_run.
    destruct (pullRequests (repo m) !! prID) eqn:Hpr; [done|].
    destruct (users (repo m) !! authorID) as [author|] eqn:Ha; [|done].
    intros k pr. simpl.
    intros [[<- <-]|[Hne Hk]]%lookup_insert_Some; unfold reviewersOf; simpl.
    + rewrite lookup_insert_eq. simpl. split.
      * rewrite (length_assignedTo Ho). lia.
      * intros id (k & u & Hk & Hu & _)%(elem_of_assignedTo Ho).
        rewrite <-Hu, (inv_user_key m Hm _ _ Hk). eauto.
    + rewrite lookup_insert_ne
        by (symmetry; by eapply CreatePR_fresh_slice).
      by apply (Hknown k).
  - rewrite MergePR_run.
    destruct (pullRequests (repo m) !! prID) as [pr0|] eqn:Hpr; [|done].
    destruct (decide _); [done|].
    rewrite (inv_pr_key m Hm _ _ Hpr), Hpr. intros k pr. simpl.
    intros [[<- <-]|[Hne Hk]]%lookup_insert_Some.
    + by apply (Hknown prID pr0).
    + by apply (Hknown k).
  - destruct (usecase.ReassignReviewer rnd prID oldReviewerID m)
      as [[[pr0 newID]|e] m'] eqn:Hrun; simpl;
      [|by rewrite (ReassignReviewer_Err _ _ _ _ _ _ Hm Hrun)].
    apply (ReassignReviewer_Ok _ _ _ _ _ _ _ Hm) in Hrun
      as (i & oldReviewer & newReviewer & Hpr & _ & _ & _ & Hnew & <- & ->).
    apply (elem_of_replacementCandidates Ho) in Hnew as [_ [k0 Hk0]].
    pose proof (inv_user_key m Hm _ _ Hk0); subst k0.
    intros k pr Hk. simpl in Hk. unfold reviewersOf. simpl.
    destruct (decide (PullRequest.AssignedReviewers pr0
                      = PullRequest.AssignedReviewers pr)) as [Heq|Hne].
    + assert (prID = k) as -> by (by eapply (inv_separate m Hm)).
      assert (pr0 = pr) as -> by congruence.
      rewrite lookup_insert_eq. simpl. rewrite length_insert.
      destruct (Hknown k pr Hk) as [Hlen Hin]. split; [done|].
      intros id [->|Hid]%elem_of_insert_inv; eauto.
    + rewrite lookup_insert_ne by done. by apply (Hknown k).
  - done.
Qed.
End known.

Lemma reachable_reviewersKnown m : reachable m → reviewersKnown m.
Proof.
  induction 1 as [|o c m Ho Hm IH].
  - intros k pr. simpl. by rewrite lookup_empty.
  - apply (exec_reviewersKnown Ho); [by apply reachable_Inv|done].
Qed.

(** ** The properties of the stored pull requests, users and teams *)


(** X10. A pull request that is merged in a reachable memory is the same
    record, with the same reviewers, in every memory that further requests
    lead to. *)
Theorem merged_pullRequest_frozen (m m' : State) k pr :
  reachable m → evolves m m' →
  pullRequests (repo m) !! k = Some pr →
  PullRequest.Status pr = StatusMerged →
  pullRequests (repo m') !! k = Some pr
  ∧ reviewersOf m' pr = reviewersOf m pr.
Proof.
  intros Hm Hev Hk Hmerged.
  destruct (evolves_keeps m m' k pr Hm Hev Hk)
    as (pr' & Hk' & _ & _ & _ & _ & _ & _ & Hfrozen).
  by destruct (Hfrozen Hmerged) as [-> ?].
Qed.

(** X11. A pull request stored in a reachable memory is stored in every
    memory that further requests lead to, with the same identifier, name,
    author and creation time and the same number of reviewers. *)
Theorem pullRequest_persists (m m' : State) k pr :
  reachable m → evolves m m' →
  pullRequests (repo m) !! k = Some pr →
  ∃ pr',
    pullRequests (repo m') !! k = Some pr'
    ∧ PullRequest.PullRequestID pr' = PullRequest.PullRequestID pr
    ∧ PullRequest.PullRequestName pr' = PullRequest.PullRequestName pr
    ∧ PullRequest.AuthorID pr' = PullRequest.AuthorID pr
    ∧ PullRequest.CreatedAt pr' = PullRequest.CreatedAt pr
    ∧ length (reviewersOf m' pr') = length (reviewersOf m pr).
Proof.
  intros Hm Hev Hk.
  destruct (evolves_keeps m m' k pr Hm Hev Hk)
    as (pr' & Hk' & ? & ? & ? & ? & _ & ? & _).
  by exists pr'.
Qed.

(** X12. Further requests delete no user and neither delete nor change a
    team record. *)
Theorem users_teams_persist (m m' : State) :
  evolves m m' →
  (∀ k, is_Some (users (repo m) !! k) → is_Some (users (repo m') !! k))
  ∧ (∀ name team, teams (repo m) !! name = Some team →
       teams (repo m') !! name = Some team).
Proof.
  induction 1 as [|o c m' Ho Hev [IHu IHt]]; [done|].
  destruct (exec_users_teams (o:=o) c m') as [Hu Ht].
  split; [intros k Hk|intros name team Hn]; eauto.
Qed.

(** ** Reading the maps in the order of a [range] loop *)

Lemma range_ids_NoDup {A} (f : A → UUID) (m : gmap UUID A)
    (l : list (UUID * A)) :
  l ≡ₚ map_to_list m →
  (∀ k x, m !! k = Some x → f x = k) →
  NoDup (f <$> l.*2).
Proof.
  intros -> Hkey. rewrite <-list_fmap_compose.
  rewrite (list_fmap_ext _ fst (map_to_list m)).
  - apply NoDup_fst_map_to_list.
  - intros i [k x] Hi. simpl. apply Hkey.
    apply elem_of_map_to_list, list_elem_of_lookup. eauto.
Qed.

Section reads.
Context {o : MapOrder} (Ho : MapOrderOk o).

(** X13. On a reachable memory [GetUserReviews] returns, without error and
    without writing, the stored pull requests that have the user among
    their reviewers, each once. *)
Theorem GetUserReviews_lists userID (m : State) :
  reachable m →
  ∃ prs,
    usecase.GetUserReviews userID m = (Ok prs, m)
    ∧ (∀ pr, pr ∈ prs
            ↔ pullRequests (repo m) !! PullRequest.PullRequestID pr = Some pr
              ∧ userID ∈ reviewersOf m pr)
    ∧ NoDup (PullRequest.PullRequestID <$> prs).
Proof.
  intros Hm%reachable_Inv. eexists. split; [done|]. split.
  - intros pr. rewrite list_elem_of_filter.
    rewrite (rangePullRequests_perm o Ho), list_elem_of_fmap.
    unfold reviewersOf. split.
    + intros [Hin ([k pr'] & -> & Hk%elem_of_map_to_list)]. simpl in *.
      by rewrite (inv_pr_key m Hm _ _ Hk).
    + intros [Hk Hin]. split; [done|].
      exists (PullRequest.PullRequestID pr, pr). split; [done|].
      by apply elem_of_map_to_list.
  - eapply sublist_NoDup; [|apply fmap_sublist, sublist_filter].
    apply (range_ids_NoDup _ (pullRequests (repo m)));
      [apply (rangePullRequests_perm o Ho)|apply (inv_pr_key m Hm)].
Qed.

(** X14. On a reachable memory [GetUsersByTeam] returns, without error and
    without writing, the stored users whose record names the team, each
    once. *)
Theorem GetUsersByTeam_lists teamName (m : State) :
  reachable m →
  ∃ us,
    GetUsersByTeam teamName m = (Ok us, m)
    ∧ (∀ u, u ∈ us
           ↔ users (repo m) !! User.UserID u = Some u
             ∧ User.TeamName u = teamName)
    ∧ NoDup (User.UserID <$> us).
Proof.
  intros Hm%reachable_Inv. eexists. split; [done|]. split.
  - intros u. rewrite list_elem_of_filter, (elem_of_rangeUsers Ho). split.
    + intros [Ht [k Hk]]. by rewrite (inv_user_key m Hm _ _ Hk).
    + intros [Hk Ht]. eauto.
  - eapply sublist_NoDup; [|apply fmap_sublist, sublist_filter].
    apply (rangeUsers_ids_NoDup Ho), (inv_user_key m Hm).
Qed.
End reads.

(** ** The team service *)

Section teams.
Context {o : MapOrder}.

(** X15. [AddTeam] with a free team name returns the team, stores it under
    its name and upserts the members, and touches no pull request and no
    reviewer list; with a name that is taken it fails with
    [ErrAlreadyExists] and writes nothing: no member is upserted. *)
Theorem AddTeam_outcome team members (m : State) :
  match usecase.AddTeam team members m with
  | (Ok created, m') =>
      created = team
      ∧ teams (repo m) !! Team.TeamName team = None
      ∧ teams (repo m') = <[Team.TeamName team := team]> (teams (repo m))
      ∧ users (repo m') = upsert (users (repo m)) members
      ∧ pullRequests (repo m') = pullRequests (repo m)
      ∧ heap m' = heap m
  | (Err e, m') =>
      e = ErrAlreadyExists
      ∧ is_Some (teams (repo m) !! Team.TeamName team)
      ∧ m' = m
  end.
Proof.
  rewrite AddTeam_run.
  destruct (teams (repo m) !! Team.TeamName team) eqn:Ht; [by eauto|done].
Qed.

(** X16. [AddTeam] does not change the member list of another team: a user
    that is listed in team A and is supplied as a member of a new team is
    still returned by [GetTeam] of A, with the record supplied last. *)
Theorem AddTeam_keeps_old_membership teamB members (m m1 : State) created
    nameA teamA member :
  usecase.AddTeam teamB members m = (Ok created, m1) →
  teams (repo m) !! nameA = Some teamA →
  member ∈ members →
  User.UserID member ∈ Team.Members teamA →
  ∃ us moved,
    usecase.GetTeam nameA m1 = (Ok (teamA, us), m1)
    ∧ latest (User.UserID member) members = Some moved
    ∧ moved ∈ us.
Proof.
  rewrite AddTeam_run.
  destruct (teams (repo m) !! Team.TeamName teamB) eqn:Ht; [done|].
  intros [= <- <-] HA Hmember Hin. rewrite GetTeam_run. simpl.
  rewrite lookup_insert_ne by congruence. rewrite HA.
  destruct (latest_is_Some (User.UserID member) members) as [moved Hmoved].
  { apply list_elem_of_fmap. eauto. }
  eexists _, moved. split; [done|]. split; [done|].
  apply list_elem_of_omap. exists (User.UserID member). split; [done|].
  by rewrite lookup_upsert, Hmoved.
Qed.
End teams.

(** ** Deactivated users *)

Section inactive.
Context {o : MapOrder} (Ho : MapOrderOk o).

(** X17. On a reachable memory a user whose record is inactive is not
    among the reviewers that [CreatePR] assigns and is not the reviewer
    that [ReassignReviewer] chooses. *)
Theorem inactive_never_assigned userID (m : State) user :
  reachable m →
  users (repo m) !! userID = Some user →
  User.IsActive user = false →
  (∀ now rnd prID prName authorID pr m',
     usecase.CreatePR now rnd prID prName authorID m = (Ok pr, m') →
     userID ∉ reviewersOf m' pr)
  ∧ (∀ rnd prID oldReviewerID pr newID m',
       usecase.ReassignReviewer rnd prID oldReviewerID m
         = (Ok (pr, newID), m') →
       newID ≠ userID).
Proof.
  intros Hm%reachable_Inv Hu Hinactive. split.
  - intros now rnd prID prName authorID pr m'. rewrite CreatePR_run.
    destruct (pullRequests (repo m) !! prID); [done|].
    destruct (users (repo m) !! authorID) as [author|]; [|done].
    intros [= <- <-]. unfold reviewersOf. simpl.
    rewrite lookup_insert_eq. simpl.
    intros (k & u & Hk & Hid & _ & _ & Hactive)%(elem_of_assignedTo Ho).
    rewrite (inv_user_key m Hm _ _ Hk) in Hid. subst k. congruence.
  - intros rnd prID oldReviewerID pr newID m' Hrun.
    apply (ReassignReviewer_Ok _ _ _ _ _ _ _ Hm) in Hrun
      as (i & oldReviewer & newReviewer & _ & _ & _ & _ & Hnew & <- & _).
    apply (elem_of_replacementCandidates Ho) in Hnew
      as [(_ & Hactive & _) [k Hk]].
    pose proof (inv_user_key m Hm _ _ Hk); subst k. congruence.
Qed.
End inactive.

(** ** The in-memory repository as a store *)

Section store.
Context {o : MapOrder}.

(** X18. The user store of the in-memory repository: [UserExists] only
    reads; of [CreateUser] and [UpdateUser] exactly the one that fits
    succeeds, the other fails ([ErrAlreadyExists], [ErrNotFound]) and
    writes nothing; after the write [GetUser] returns the record,
    [UserExists] is true and the other identifiers read as before. *)
Theorem Memory_user_store user (m : State) :
  let id := User.UserID user in
  let m' := set_users <[id := user]> m in
  ∃ known : bool,
    UserExists id m = (Ok known, m)
    ∧ (if known
       then UpdateUser user m = (Ok tt, m')
            ∧ CreateUser user m = (Err ErrAlreadyExists, m)
            ∧ is_Some (users (repo m) !! id)
       else CreateUser user m = (Ok tt, m')
            ∧ UpdateUser user m = (Err ErrNotFound, m)
            ∧ GetUser id m = (Err ErrNotFound, m))
    ∧ GetUser id m' = (Ok user, m')
    ∧ UserExists id m' = (Ok true, m')
    ∧ ∀ k, k ≠ id → (GetUser k m').1 = (GetUser k m).1.
Proof.
  intros id m'. simpl. unfold Memory.UserExists, Memory.UpdateUser,
    Memory.CreateUser, Memory.GetUser. simpl. fold id.
  rewrite lookup_insert_eq.
  exists (bool_decide (is_Some (users (repo m) !! id))).
  split; [done|]. split.
  - destruct (users (repo m) !! id) eqn:Hid.
    + rewrite bool_decide_eq_true_2 by eauto. eauto.
    + by rewrite bool_decide_eq_false_2 by (by intros [??]).
  - split; [done|]. split; [rewrite bool_decide_eq_true_2 by eauto; done|].
    intros k Hk. rewrite lookup_insert_ne by done.
    by destruct (_ !! k).
Qed.

(** X19. The team store of the in-memory repository: [TeamExists] only
    reads; [CreateTeam] of a stored name fails with [ErrAlreadyExists] and
    writes nothing; of a free name it succeeds, and then [GetTeam] returns
    the team, [TeamExists] is true and the other names read as before. *)
Theorem Memory_team_store team (m : State) :
  let name := Team.TeamName team in
  let m' := set_teams <[name := team]> m in
  ∃ known : bool,
    TeamExists name m = (Ok known, m)
    ∧ (if known
       then CreateTeam team m = (Err ErrAlreadyExists, m)
            ∧ ∃ stored, GetTeam name m = (Ok stored, m)
       else CreateTeam team m = (Ok tt, m')
            ∧ GetTeam name m = (Err ErrNotFound, m)
            ∧ GetTeam name m' = (Ok team, m')
            ∧ TeamExists name m' = (Ok true, m')
            ∧ ∀ other, other ≠ name →
                (GetTeam other m').1 = (GetTeam other m).1).
Proof.
  intros name m'. simpl. unfold Memory.TeamExists, Memory.CreateTeam,
    Memory.GetTeam. simpl. fold name.
  exists (bool_decide (is_Some (teams (repo m) !! name))).
  split; [done|].
  destruct (teams (repo m) !! name) eqn:Hname.
  - rewrite bool_decide_eq_true_2 by eauto. eauto.
  - rewrite bool_decide_eq_false_2 by (by intros [??]).
    rewrite lookup_insert_eq. split_and!; try done.
    intros other Hne. rewrite lookup_insert_ne by done.
    by destruct (_ !! other).
Qed.

(** X20. The pull-request store of the in-memory repository: [PRExists]
    only reads; of [CreatePullRequest] and [UpdatePullRequest] exactly the
    one that fits succeeds, the other fails and writes nothing; after the
    write [GetPullRequest] returns the record, [PRExists] is true and the
    other identifiers read as before. *)
Theorem Memory_pullRequest_store pr (m : State) :
  let id := PullRequest.PullRequestID pr in
  let m' := set_pullRequests <[id := pr]> m in
  ∃ known : bool,
    PRExists id m = (Ok known, m)
    ∧ (if known
       then UpdatePullRequest pr m = (Ok tt, m')
            ∧ CreatePullRequest pr m = (Err ErrAlreadyExists, m)
            ∧ is_Some (pullRequests (repo m) !! id)
       else CreatePullRequest pr m = (Ok tt, m')
            ∧ UpdatePullRequest pr m = (Err ErrNotFound, m)
            ∧ GetPullRequest id m = (Err ErrNotFound, m))
    ∧ GetPullRequest id m' = (Ok pr, m')
    ∧ PRExists id m' = (Ok true, m')
    ∧ ∀ k, k ≠ id → (GetPullRequest k m').1 = (GetPullRequest k m).1.
Proof.
  intros id m'. simpl. unfold Memory.PRExists, Memory.UpdatePullRequest,
    Memory.CreatePullRequest, Memory.GetPullRequest. simpl. fold id.
  rewrite lookup_insert_eq.
  exists (bool_decide (is_Some (pullRequests (repo m) !! id))).
  split; [done|]. split.
  - destruct (pullRequests (repo m) !! id) eqn:Hid.
    + rewrite bool_decide_eq_true_2 by eauto. eauto.
    + by rewrite bool_decide_eq_false_2 by (by intros [??]).
  - split; [done|]. split; [rewrite bool_decide_eq_true_2 by eauto; done|].
    intros k Hk. rewrite lookup_insert_ne by done.
    by destruct (_ !! k).
Qed.
End store.

(** ** The HTTP interface on the in-memory repository *)

Lemma parseMembers_Some {codec : Codec} dtos teamName members :
  controller.parseMembers dtos teamName = Some members →
  Forall2 (λ dto u,
      uuid_Parse (controller.TeamMemberDTO.UserID dto) = Some (User.UserID u)
      ∧ User.Username u = controller.TeamMemberDTO.Username dto
      ∧ User.TeamName u = teamName
      ∧ User.IsActive u = controller.TeamMemberDTO.IsActive dto)
    dtos members.
Proof.
  revert members. induction dtos as [|dto dtos IH]; intros members; simpl.
  { intros [= <-]. constructor. }
  unfold controller.TeamMemberDTOToEntity.
  destruct (uuid_Parse _) as [id|] eqn:Hid; [|done].
  destruct (controller.parseMembers dtos teamName) as [us|]; [|done].
  intros [= <-]. constructor; [done|]. by apply IH.
Qed.

Lemma latest_NoDup members u :
  NoDup (User.UserID <$> members) → u ∈ members →
  latest (User.UserID u) members = Some u.
Proof.
  induction members as [|v l IH]; [by intros _ ?%elem_of_nil|].
  rewrite fmap_cons, NoDup_cons, latest_cons. intros [Hv Hl] Hu.
  apply elem_of_cons in Hu as [->|Hu].
  - destruct (latest (User.UserID v) l) as [w|] eqn:Hw.
    + destruct (latest_Some _ _ _ Hw) as [Hin Hid].
      destruct Hv. rewrite <-Hid. apply list_elem_of_fmap. eauto.
    + by rewrite decide_True.
  - by rewrite (IH Hl Hu).
Qed.

Lemma omap_latest members :
  NoDup (User.UserID <$> members) →
  omap (λ u, latest (User.UserID u) members) members = members.
Proof.
  intros Hnd.
  assert (H : ∀ l : list User.t, (∀ u, u ∈ l → u ∈ members) →
                omap (λ u, latest (User.UserID u) members) l = l).
  { induction l as [|u l IH]; [done|]. intros Hsub. csimpl.
    rewrite (latest_NoDup members u Hnd) by (apply Hsub; left).
    simpl. rewrite IH; [done|]. intros v Hv. apply Hsub. by right. }
  by apply H.
Qed.


Lemma omap_upsert_members (us : gmap UUID User.t) members :
  omap (λ id, upsert us members !! id) (User.UserID <$> members)
  = omap (λ u, latest (User.UserID u) members) members.
Proof.
  assert (H : ∀ l : list User.t, (∀ u, u ∈ l → u ∈ members) →
            omap (λ id, upsert us members !! id) (User.UserID <$> l)
            = omap (λ u, latest (User.UserID u) members) l).
  { induction l as [|u l IH]; [done|]. intros Hsub. csimpl.
    rewrite lookup_upsert.
    destruct (latest_is_Some (User.UserID u) members) as [v ->].
    { apply list_elem_of_fmap. exists u. split; [done|]. apply Hsub. left. }
    rewrite IH; [done|]. intros w Hw. apply Hsub. by right. }
  by apply H.
Qed.

Lemma length_omap_latest members :
  length (omap (λ u, latest (User.UserID u) members) members)
  = length members.
Proof.
  assert (H : ∀ l : list User.t, (∀ u, u ∈ l → u ∈ members) →
            length (omap (λ u, latest (User.UserID u) members) l)
            = length l).
  { induction l as [|u l IH]; [done|]. intros Hsub. csimpl.
    destruct (latest_is_Some (User.UserID u) members) as [v ->].
    { apply list_elem_of_fmap. exists u. split; [done|]. apply Hsub. left. }
    simpl. rewrite IH; [done|]. intros w Hw. apply Hsub. by right. }
  by apply H.
Qed.

Section http.
Context {o : MapOrder} {codec : Codec}.

End http.


Section responses.
Context {o : MapOrder} {codec : Codec}.

(** What [ReassignReviewer] returns on the in-memory repository: a
    result or one of its four errors, and no other. *)
Lemma ReassignReviewer_errors rnd prID oldReviewerID (m : State) :
  match usecase.ReassignReviewer rnd prID oldReviewerID m with
  | (Ok _, _) => True
  | (Err e, _) =>
      e = ErrNotFound ∨ e = ErrPRMerged ∨ e = ErrNotAssigned
      ∨ e = ErrNoCandidate
  end.
Proof.
  pose proof (ReassignReviewer_no_panic rnd prID oldReviewerID m) as Hnp.
  destruct (usecase.ReassignReviewer rnd prID oldReviewerID m)
    as [[?|e] m'] eqn:Hrun; [done|].
  rewrite ReassignReviewer_run in Hrun.
  destruct (pullRequests (repo m) !! prID) as [pr|];
    [|injection Hrun as <- _; auto].
  destruct (decide _); [injection Hrun as <- _; auto|].
  destruct (decide _); [|injection Hrun as <- _; auto].
  destruct (users (repo m) !! oldReviewerID);
    [|injection Hrun as <- _; auto].
  simpl in Hrun. destruct (_ !! rand_Intn _ _).
  - destruct (pullRequests (repo m) !! PullRequest.PullRequestID pr);
      [done|injection Hrun as <- _; auto].
  - destruct (decide _); [injection Hrun as <- _; auto 10|].
    injection Hrun as <- _. by destruct (Hnp "index out of range").
Qed.

(** X21. With the in-memory repository no handler answers with status 500,
    whatever the request and the memory. *)
Theorem handlers_never_500 r (m : State) :
  controller.status (serve r m).1 ≠ controller.StatusInternalServerError.
Proof.
  destruct r as [[req|]|teamName|[req|]|userIDStr|now rnd [req|]
                |now [req|]|rnd [req|]]; simpl; try done.
  - unfold controller.TeamController_AddTeam.
    destruct (controller.parseMembers _ _) as [members|]; [|done].
    rewrite AddTeam_run. simpl.
    destruct (teams (repo m) !! _) eqn:Ht; [done|].
    rewrite GetTeam_run. simpl. by rewrite lookup_insert_eq.
  - unfold controller.TeamController_GetTeam.
    destruct (decide _); [done|]. rewrite GetTeam_run.
    by destruct (teams (repo m) !! teamName).
  - unfold controller.UserController_SetIsActive.
    destruct (uuid_Parse _) as [userID|]; [|done].
    rewrite SetIsActive_run.
    destruct (users (repo m) !! userID) as [user|]; [|done]. simpl.
    by destruct (users (repo m) !! User.UserID user).
  - unfold controller.UserController_GetReview.
    destruct (decide _); [done|]. by destruct (uuid_Parse _).
  - unfold controller.PullRequestController_CreatePR.
    destruct (uuid_Parse _) as [prID|]; [|done].
    destruct (uuid_Parse _) as [authorID|]; [|done].
    rewrite CreatePR_run. destruct (pullRequests (repo m) !! prID); [done|].
    by destruct (users (repo m) !! authorID).
  - unfold controller.PullRequestController_MergePR.
    destruct (uuid_Parse _) as [prID|]; [|done].
    rewrite MergePR_run.
    destruct (pullRequests (repo m) !! prID) as [pr|]; [|done].
    destruct (decide _); [done|].
    by destruct (pullRequests (repo m) !! PullRequest.PullRequestID pr).
  - unfold controller.PullRequestController_ReassignReviewer.
    destruct (uuid_Parse _) as [prID|]; [|done].
    destruct (uuid_Parse _) as [oldReviewerID|]; [|done].
    pose proof (ReassignReviewer_errors rnd prID oldReviewerID m) as He.
    destruct (usecase.ReassignReviewer rnd prID oldReviewerID m)
      as [[[pr newID]|e] m']; [done|].
    by destruct He as [->|[->|[->| ->]]].
Qed.

(** X22. On a reachable memory a request that a handler answers with a
    status of 400 or above leaves the memory as it was. *)
Theorem rejected_request_writes_nothing r (m : State) :
  reachable m →
  400 ≤ controller.status (serve r m).1 →
  (serve r m).2 = m.
Proof.
  intros Hm%reachable_Inv.
  destruct r as [[req|]|teamName|[req|]|userIDStr|now rnd [req|]
                |now [req|]|rnd [req|]]; simpl; try done.
  - unfold controller.TeamController_AddTeam.
    destruct (controller.parseMembers _ _) as [members|]; [|done].
    rewrite AddTeam_run. simpl.
    destruct (teams (repo m) !! _) eqn:Ht; [done|].
    rewrite GetTeam_run. simpl. rewrite lookup_insert_eq. simpl.
    unfold controller.StatusCreated. lia.
  - unfold controller.TeamController_GetTeam.
    destruct (decide _); [done|]. rewrite GetTeam_run.
    by destruct (teams (repo m) !! teamName).
  - unfold controller.UserController_SetIsActive.
    destruct (uuid_Parse _) as [userID|]; [|done].
    rewrite SetIsActive_run.
    destruct (users (repo m) !! userID) as [user|]; [|done]. simpl.
    destruct (users (repo m) !! User.UserID user); [|done]. simpl.
    unfold controller.StatusOK. lia.
  - unfold controller.UserController_GetReview.
    destruct (decide _); [done|]. by destruct (uuid_Parse _).
  - unfold controller.PullRequestController_CreatePR.
    destruct (uuid_Parse _) as [prID|]; [|done].
    destruct (uuid_Parse _) as [authorID|]; [|done].
    rewrite CreatePR_run. destruct (pullRequests (repo m) !! prID); [done|].
    destruct (users (repo m) !! authorID); [|done]. simpl.
    unfold controller.StatusCreated. lia.
  - unfold controller.PullRequestController_MergePR.
    destruct (uuid_Parse _) as [prID|]; [|done].
    rewrite MergePR_run.
    destruct (pullRequests (repo m) !! prID) as [pr|]; [|done].
    destruct (decide _); [done|].
    destruct (pullRequests (repo m) !! PullRequest.PullRequestID pr);
      [|done].
    simpl. unfold controller.StatusOK. lia.
  - unfold controller.PullRequestController_ReassignReviewer.
    destruct (uuid_Parse _) as [prID|]; [|done].
    destruct (uuid_Parse _) as [oldReviewerID|]; [|done].
    destruct (usecase.ReassignReviewer rnd prID oldReviewerID m)
      as [[[pr newID]|e] m'] eqn:Hrun.
    + simpl. unfold controller.StatusOK. lia.
    + apply (ReassignReviewer_Err _ _ _ _ _ _ Hm) in Hrun as ->.
      by destruct e.
Qed.
End responses.

Section api.
Context {o : MapOrder} {codec : Codec}.

(** X23. The handler of [POST /team/add], when every member identifier
    parses and the team name is free, answers 201 with the team name and
    one member per member of the request, in order: the record supplied
    last for its identifier (the members themselves when the identifiers
    are distinct).  The team is stored with the parsed identifiers as its
    member list. *)
Theorem TeamController_AddTeam_created req members (m : State) :
  controller.parseMembers (controller.TeamDTO.Members req)
    (controller.TeamDTO.TeamName req) = Some members →
  teams (repo m) !! controller.TeamDTO.TeamName req = None →
  let team := Team.mk (controller.TeamDTO.TeamName req)
                (User.UserID <$> members) in
  let returned := omap (λ u, latest (User.UserID u) members) members in
  controller.TeamController_AddTeam (Some req) m
  = (controller.sendJSON controller.StatusCreated
       (controller.TeamResponse
          (controller.TeamDTO.mk (controller.TeamDTO.TeamName req)
             (controller.TeamMemberToDTO <$> returned))),
     set_teams <[controller.TeamDTO.TeamName req := team]>
       (set_users (λ us, upsert us members) m))
  ∧ length returned = length (controller.TeamDTO.Members req)
  ∧ (NoDup (User.UserID <$> members) → returned = members).
Proof.
  intros Hparse Ht team returned. split_and!.
  - unfold controller.TeamController_AddTeam. rewrite Hparse.
    fold team. rewrite AddTeam_run. simpl. rewrite Ht.
    rewrite GetTeam_run. simpl. rewrite lookup_insert_eq. simpl.
    unfold controller.TeamToDTO. simpl.
    by rewrite omap_upsert_members.
  - rewrite (Forall2_length _ _ _ (parseMembers_Some _ _ _ Hparse)).
    apply length_omap_latest.
  - apply omap_latest.
Qed.


(** X25. On a reachable memory the handler of [GET /users/getReview]
    answers a well-formed identifier without user record with status 200
    and no pull request, and echoes the parameter as it was given. *)
Theorem UserController_GetReview_unknown_user userIDStr userID (m : State) :
  MapOrderOk o →
  reachable m →
  userIDStr ≠ "" →
  uuid_Parse userIDStr = Some userID →
  users (repo m) !! userID = None →
  controller.UserController_GetReview userIDStr m
  = (controller.sendJSON controller.StatusOK
       (controller.ReviewsResponse userIDStr []), m).
Proof.
  intros Ho Hm Hne Hparse Hu. unfold controller.UserController_GetReview.
  rewrite decide_False, Hparse by done. simpl.
  unfold Memory.GetPullRequestsByReviewer.
  assert (filter (λ pr, userID ∈ default [] (heap m !!
                    PullRequest.AssignedReviewers pr))
            (rangePullRequests (pullRequests (repo m))).*2 = []) as ->;
    [|done].
  apply elem_of_nil_inv. intros pr [Hin Hpr]%list_elem_of_filter.
  rewrite (rangePullRequests_perm o Ho) in Hpr.
  apply list_elem_of_fmap in Hpr as ([k pr'] & -> & Hk%elem_of_map_to_list).
  destruct (reachable_reviewersKnown m Hm k pr' Hk) as [_ Hknown].
  destruct (Hknown userID Hin) as [u Hsome]. simpl in *. congruence.
Qed.

(** X26. The DTO of a pull request stored in a reachable memory has a
    [mergedAt] if and only if its status is ["MERGED"]; it always has a
    [createdAt] and at most two reviewers. *)
Theorem PullRequestToDTO_mergedAt (m : State) k pr :
  reachable m →
  pullRequests (repo m) !! k = Some pr →
  let dto := controller.PullRequestToDTO m pr in
  (is_Some (controller.PullRequestDTO.MergedAt dto)
   ↔ controller.PullRequestDTO.Status dto = "MERGED")
  ∧ is_Some (controller.PullRequestDTO.CreatedAt dto)
  ∧ length (controller.PullRequestDTO.AssignedReviewers dto) ≤ 2.
Proof.
  intros Hm Hk dto. split_and!.
  - pose proof (inv_merged m (reachable_Inv m Hm) k pr Hk) as Hiff.
    simpl. destruct (PullRequest.MergedAt pr) as [t|],
      (PullRequest.Status pr); simpl.
    + assert (StatusOpen = StatusMerged) by (apply Hiff; eauto). done.
    + split; eauto.
    + split; [by intros [??]|done].
    + assert (is_Some (@None Z)) as [? [=]] by (by apply Hiff).
  - simpl. eauto.
  - simpl. rewrite length_fmap.
    by destruct (reachable_reviewersKnown m Hm k pr Hk) as [Hlen _].
Qed.

(** X27. A user converted to a team-member DTO and back, with its team
    name, is the same user, provided the identifier parses back from its
    string. *)
Theorem TeamMember_roundtrip (u : User.t) :
  uuid_Parse (uuid_String (User.UserID u)) = Some (User.UserID u) →
  controller.TeamMemberDTOToEntity (controller.TeamMemberToDTO u)
    (User.TeamName u) = Some u.
Proof.
  intros Hparse. unfold controller.TeamMemberDTOToEntity. simpl.
  rewrite Hparse. by destruct u.
Qed.
End api.



(** ** The claims on the examples *)

Section witnesses.
#[local] Existing Instance stdOrder.

Lemma withTeam_reachable : reachable Example.withTeam.
Proof. apply reachable_exec; [apply stdOrder_ok|apply reachable_initial]. Qed.

Lemma withPR_reachable : reachable Example.withPR.
Proof. apply reachable_exec; [apply stdOrder_ok|apply withTeam_reachable]. Qed.

Lemma withPR4_reachable : reachable Example.withPR4.
Proof.
  do 2 (apply reachable_exec; [apply stdOrder_ok|]). apply reachable_initial.
Qed.

Lemma CreatePR_reviewers_witness :
  reachable Example.withTeam
  ∧ match usecase.CreatePR 100 Example.rnd 10 "fix" 1 Example.withTeam with
    | (Ok pr, m') =>
        ∃ author,
          users (repo Example.withTeam) !! 1%N = Some author
          ∧ pullRequests (repo m') !! 10%N = Some pr
          ∧ length (reviewersOf m' pr)
            = Nat.min 2 (eligibleCount (users (repo Example.withTeam)) author)
          ∧ (1%N ∉ reviewersOf m' pr)
          ∧ NoDup (reviewersOf m' pr)
          ∧ (∀ id, id ∈ reviewersOf m' pr →
               ∃ u, users (repo Example.withTeam) !! id = Some u
                    ∧ eligible author u)
    | (Err e, m') =>
        m' = Example.withTeam
        ∧ (e = ErrAlreadyExists
           ∧ is_Some (pullRequests (repo Example.withTeam) !! 10%N)
           ∨ e = ErrNotFound ∧ users (repo Example.withTeam) !! 1%N = None)
    end.
Proof.
  split; [apply withTeam_reachable|].
  apply (CreatePR_reviewers stdOrder_ok), withTeam_reachable.
Defined.

Lemma ReassignReviewer_replaces_witness :
  reachable Example.withPR4
  ∧ usecase.ReassignReviewer Example.rnd 10 2 Example.withPR4
    = (Ok (Example.pr10, 4%N), Example.reassigned)
  ∧ ∃ i oldReviewer newReviewer,
      pullRequests (repo Example.withPR4) !! 10%N = Some Example.pr10
      ∧ pullRequests (repo Example.reassigned) !! 10%N = Some Example.pr10
      ∧ reviewersOf Example.withPR4 Example.pr10 !! i = Some 2%N
      ∧ reviewersOf Example.reassigned Example.pr10
        = <[i := 4%N]> (reviewersOf Example.withPR4 Example.pr10)
      ∧ length (reviewersOf Example.reassigned Example.pr10)
        = length (reviewersOf Example.withPR4 Example.pr10)
      ∧ (∀ j, j ≠ i →
           (reviewersOf Example.reassigned Example.pr10 !! j)
           = (reviewersOf Example.withPR4 Example.pr10 !! j))
      ∧ reviewersOf Example.reassigned Example.pr10 !! i = Some 4%N
      ∧ (2%N ∉ reviewersOf Example.reassigned Example.pr10)
      ∧ users (repo Example.withPR4) !! 2%N = Some oldReviewer
      ∧ users (repo Example.withPR4) !! 4%N = Some newReviewer
      ∧ User.IsActive newReviewer = true
      ∧ User.TeamName newReviewer = User.TeamName oldReviewer
      ∧ 4%N ≠ PullRequest.AuthorID Example.pr10
      ∧ 4%N ∉ reviewersOf Example.withPR4 Example.pr10.
Proof.
  assert (Hrun : usecase.ReassignReviewer Example.rnd 10 2 Example.withPR4
                 = (Ok (Example.pr10, 4%N), Example.reassigned))
    by (vm_compute; reflexivity).
  split; [apply withPR4_reachable|]. split; [exact Hrun|].
  exact (ReassignReviewer_replaces stdOrder_ok _ _ _ _ _ _ _
           withPR4_reachable Hrun).
Defined.

Lemma ReassignReviewer_NoCandidate_witness :
  pullRequests (repo Example.withPR) !! 10%N = Some Example.pr10
  ∧ PullRequest.Status Example.pr10 ≠ StatusMerged
  ∧ 2%N ∈ reviewersOf Example.withPR Example.pr10
  ∧ users (repo Example.withPR) !! 2%N = Some Example.bob
  ∧ map_Forall (λ _ u,
        User.TeamName u = User.TeamName Example.bob →
        User.IsActive u = true →
        User.UserID u = PullRequest.AuthorID Example.pr10
        ∨ User.UserID u ∈ reviewersOf Example.withPR Example.pr10)
      (users (repo Example.withPR))
  ∧ usecase.ReassignReviewer Example.rnd 10 2 Example.withPR
    = (Err ErrNoCandidate, Example.withPR).
Proof.
  assert (H1 : pullRequests (repo Example.withPR) !! 10%N
               = Some Example.pr10) by (vm_compute; reflexivity).
  assert (H2 : PullRequest.Status Example.pr10 ≠ StatusMerged)
    by (simpl; discriminate).
  assert (H3 : 2%N ∈ reviewersOf Example.withPR Example.pr10)
    by (apply (bool_decide_unpack _); vm_compute; exact I).
  assert (H4 : users (repo Example.withPR) !! 2%N = Some Example.bob)
    by (vm_compute; reflexivity).
  assert (H5 : map_Forall (λ _ u,
                   User.TeamName u = User.TeamName Example.bob →
                   User.IsActive u = true →
                   User.UserID u = PullRequest.AuthorID Example.pr10
                   ∨ User.UserID u ∈ reviewersOf Example.withPR Example.pr10)
                 (users (repo Example.withPR)))
    by (apply (bool_decide_unpack _); vm_compute; exact I).
  split_and!; try assumption.
  exact (ReassignReviewer_NoCandidate stdOrder_ok Example.rnd _ _ _ _ _
           H1 H2 H3 H4 H5).
Defined.

Lemma ReassignReviewer_preconditions_witness :
  reassignPrecondition Example.merged10 10 7 = Some ErrPRMerged
  ∧ usecase.ReassignReviewer Example.rnd 10 7 Example.merged10
    = (Err ErrPRMerged, Example.merged10).
Proof.
  assert (H : reassignPrecondition Example.merged10 10 7 = Some ErrPRMerged)
    by (vm_compute; reflexivity).
  split; [exact H|].
  exact (ReassignReviewer_preconditions Example.rnd _ _ _ _ H).
Defined.

(** The order of the checks on two more calls: an unknown pull request
    with an unknown user, and a user that is neither assigned nor known. *)
Example ReassignReviewer_unknown_pr :
  usecase.ReassignReviewer Example.rnd 11 7 Example.withPR
  = (Err ErrNotFound, Example.withPR).
Proof. vm_compute. reflexivity. Qed.

Example ReassignReviewer_unassigned_unknown_user :
  usecase.ReassignReviewer Example.rnd 10 7 Example.withPR
  = (Err ErrNotAssigned, Example.withPR).
Proof. vm_compute. reflexivity. Qed.

Lemma MergePR_idempotent_witness :
  pullRequests (repo Example.withPR) !! 10%N = Some Example.pr10
  ∧ (PullRequest.Status Example.pr10 = StatusMerged →
     ∀ now, usecase.MergePR now 10 Example.withPR
            = (Ok Example.pr10, Example.withPR))
  ∧ (reachable Example.withPR →
     ∀ now, ∃ pr1 m1,
       usecase.MergePR now 10 Example.withPR = (Ok pr1, m1)
       ∧ pullRequests (repo m1) !! 10%N = Some pr1
       ∧ PullRequest.Status pr1 = StatusMerged
       ∧ is_Some (PullRequest.MergedAt pr1)
       ∧ ∀ now', usecase.MergePR now' 10 m1 = (Ok pr1, m1)).
Proof.
  assert (H : pullRequests (repo Example.withPR) !! 10%N
              = Some Example.pr10) by (vm_compute; reflexivity).
  split; [exact H|]. exact (MergePR_idempotent _ _ _ H).
Defined.

Lemma MergedAt_iff_Merged_witness :
  reachable Example.merged10
  ∧ ∀ prID pr, pullRequests (repo Example.merged10) !! prID = Some pr →
      is_Some (PullRequest.MergedAt pr)
      ↔ PullRequest.Status pr = StatusMerged.
Proof.
  assert (H : reachable Example.merged10).
  { apply reachable_exec; [apply stdOrder_ok|apply withPR_reachable]. }
  split; [exact H|]. exact (proj1 (MergedAt_iff_Merged _ H)).
Defined.

Lemma AddTeam_member_failure_witness :
  let failure := ErrOther "user records are write-once" in
  (TeamExists (Team.TeamName Example.teamB) Example.withTeam).1 = Ok false
  ∧ usecase.createOrUpdateMembers
      (userRepo := WriteOnce.userRepository stdOrder)
      [Example.zed] Example.withTeam
    = (Ok tt, Example.withZed)
  ∧ usecase.createOrUpdateMembers
      (userRepo := WriteOnce.userRepository stdOrder)
      [Example.bob2] Example.withZed
    = (Err failure, Example.withZed)
  ∧ usecase.AddTeam (userRepo := WriteOnce.userRepository stdOrder)
      Example.teamB ([Example.zed] ++ Example.bob2 :: [Example.yan])
      Example.withTeam
    = (Err failure, Example.withZed)
  ∧ (TeamExists (Team.TeamName Example.teamB) Example.withZed).1 = Ok false
  ∧ ∀ id u, latest id [Example.zed] = Some u →
      (GetUser (UserRepository := WriteOnce.userRepository stdOrder)
         id Example.withZed).1 = Ok u.
Proof.
  intros failure.
  assert (H1 : (TeamExists (Team.TeamName Example.teamB)
                  Example.withTeam).1 = Ok false)
    by (vm_compute; reflexivity).
  assert (H2 : usecase.createOrUpdateMembers
                 (userRepo := WriteOnce.userRepository stdOrder)
                 [Example.zed] Example.withTeam
               = (Ok tt, Example.withZed)) by (vm_compute; reflexivity).
  assert (H3 : usecase.createOrUpdateMembers
                 (userRepo := WriteOnce.userRepository stdOrder)
                 [Example.bob2] Example.withZed
               = (Err failure, Example.withZed))
    by (vm_compute; reflexivity).
  split_and!; try assumption;
    apply (AddTeam_member_failure (contract := WriteOnce_contract stdOrder)
             Example.teamB [Example.zed] Example.bob2 [Example.yan]
             failure _ _ _ H1 H2 H3).
Defined.

Lemma AddTeam_GetTeam_witness :
  let team := Team.mk "A" [1; 2; 3]%N in
  let members := [Example.alice; Example.bob; Example.carol] in
  reachable initial
  ∧ usecase.AddTeam team members initial = (Ok team, Example.withTeam)
  ∧ team = team
  ∧ ∃ us,
      usecase.GetTeam (Team.TeamName team) Example.withTeam
      = (Ok (team, us), Example.withTeam)
      ∧ us = omap (λ id, users (repo Example.withTeam) !! id)
               (Team.Members team)
      ∧ User.UserID <$> us
        = filter (λ id, is_Some (users (repo Example.withTeam) !! id))
            (Team.Members team)
      ∧ (∀ u, u ∈ members →
           users (repo Example.withTeam) !! User.UserID u
           = latest (User.UserID u) members)
      ∧ (Team.Members team = User.UserID <$> members →
         User.UserID <$> us = Team.Members team
         ∧ ∀ u, u ∈ us → latest (User.UserID u) members = Some u).
Proof.
  intros team members.
  assert (H : usecase.AddTeam team members initial
              = (Ok team, Example.withTeam)) by (vm_compute; reflexivity).
  split; [apply reachable_initial|]. split; [exact H|].
  exact (AddTeam_GetTeam _ _ _ _ _ reachable_initial H).
Defined.

Lemma CreatePR_any_author_witness :
  User.IsActive Example.erin = false
  ∧ users (repo Example.withErin) !! 5%N = Some Example.erin
  ∧ pullRequests (repo Example.withErin) !! 11%N = None
  ∧ ∃ pr m',
      usecase.CreatePR 100 Example.rnd 11 "fix" 5 Example.withErin
      = (Ok pr, m')
      ∧ PullRequest.AuthorID pr = 5%N
      ∧ pullRequests (repo m') !! 11%N = Some pr.
Proof.
  assert (H1 : users (repo Example.withErin) !! 5%N = Some Example.erin)
    by (vm_compute; reflexivity).
  assert (H2 : pullRequests (repo Example.withErin) !! 11%N = None)
    by (vm_compute; reflexivity).
  split; [reflexivity|]. split; [exact H1|]. split; [exact H2|].
  exact (CreatePR_any_author 100 Example.rnd 11 "fix" 5 _ _ H1 H2).
Defined.

Lemma AddTeam_duplicate_members_witness :
  let members := [Example.zed; Example.bob2; Example.bob] in
  teams (repo Example.withTeam) !! Team.TeamName Example.teamB = None
  ∧ ∃ m',
      usecase.AddTeam Example.teamB members Example.withTeam
      = (Ok Example.teamB, m')
      ∧ ∀ id, users (repo m') !! id
              = match latest id members with
                | Some u => Some u
                | None => users (repo Example.withTeam) !! id
                end.
Proof.
  intros members.
  assert (H : teams (repo Example.withTeam)
                !! Team.TeamName Example.teamB = None)
    by (vm_compute; reflexivity).
  split; [exact H|].
  exact (proj1 (AddTeam_duplicate_members Example.teamB members _ H)).
Defined.
End witnesses.

(** ** The further properties on the examples *)

Section more_witnesses.
#[local] Existing Instance stdOrder.
#[local] Existing Instance Scenario.codec.

Lemma merged10_reachable : reachable Example.merged10.
Proof. apply reachable_exec; [apply stdOrder_ok|apply withPR_reachable]. Qed.

Lemma withPR_evolves : evolves Example.withPR Example.merged10.
Proof. apply evolves_exec; [apply stdOrder_ok|apply evolves_refl]. Qed.

Lemma merged10_evolves : evolves Example.merged10 Scenario.later.
Proof. apply evolves_exec; [apply stdOrder_ok|apply evolves_refl]. Qed.

Lemma withInactive_reachable : reachable Scenario.withInactive.
Proof. apply reachable_exec; [apply stdOrder_ok|apply reachable_initial]. Qed.


Lemma SetIsActive_outcome_witness :
  reachable Example.withTeam
  ∧ match usecase.SetIsActive 2 false Example.withTeam with
    | (Ok updated, m') =>
        ∃ user,
          users (repo Example.withTeam) !! 2%N = Some user
          ∧ updated = User.mk 2 (User.Username user)
                        (User.TeamName user) false
          ∧ users (repo m') = <[2%N := updated]> (users (repo Example.withTeam))
          ∧ teams (repo m') = teams (repo Example.withTeam)
          ∧ pullRequests (repo m') = pullRequests (repo Example.withTeam)
          ∧ heap m' = heap Example.withTeam
    | (Err e, m') =>
        e = ErrNotFound ∧ users (repo Example.withTeam) !! 2%N = None
        ∧ m' = Example.withTeam
    end.
Proof.
  split; [apply withTeam_reachable|].
  exact (SetIsActive_outcome 2 false _ withTeam_reachable).
Defined.

Lemma CreatePR_duplicate_witness :
  pullRequests (repo Example.withPR) !! 10%N = Some Example.pr10
  ∧ usecase.CreatePR 300 Example.rnd 10 "again" 77 Example.withPR
    = (Err ErrAlreadyExists, Example.withPR).
Proof.
  assert (H : pullRequests (repo Example.withPR) !! 10%N
              = Some Example.pr10) by (vm_compute; reflexivity).
  split; [exact H|].
  exact (CreatePR_duplicate 300 Example.rnd 10 "again" 77 _ _ H).
Defined.

Lemma CreatePR_frame_witness :
  reachable Example.withTeam
  ∧ usecase.CreatePR 100 Example.rnd 10 "fix" 1 Example.withTeam
    = (Ok Example.pr10, Example.withPR)
  ∧ pullRequests (repo Example.withTeam) !! 10%N = None
  ∧ users (repo Example.withPR) = users (repo Example.withTeam)
  ∧ teams (repo Example.withPR) = teams (repo Example.withTeam).
Proof.
  assert (H : usecase.CreatePR 100 Example.rnd 10 "fix" 1 Example.withTeam
              = (Ok Example.pr10, Example.withPR))
    by (vm_compute; reflexivity).
  split; [apply withTeam_reachable|]. split; [exact H|].
  destruct (CreatePR_frame 100 Example.rnd 10 "fix" 1 _ _ _
              withTeam_reachable H) as (H1 & _ & _ & _ & _ & H2 & H3 & _).
  split; [exact H1|]. split; [exact H2|exact H3].
Defined.

Lemma CreatePR_assigns_all_witness :
  reachable Example.withTeam
  ∧ usecase.CreatePR 100 Example.rnd 10 "fix" 1 Example.withTeam
    = (Ok Example.pr10, Example.withPR)
  ∧ users (repo Example.withTeam) !! 1%N = Some Example.alice
  ∧ eligibleCount (users (repo Example.withTeam)) Example.alice ≤ 2
  ∧ ∀ id, id ∈ reviewersOf Example.withPR Example.pr10
          ↔ ∃ u, users (repo Example.withTeam) !! id = Some u
                 ∧ eligible Example.alice u.
Proof.
  assert (H1 : usecase.CreatePR 100 Example.rnd 10 "fix" 1 Example.withTeam
               = (Ok Example.pr10, Example.withPR))
    by (vm_compute; reflexivity).
  assert (H2 : users (repo Example.withTeam) !! 1%N = Some Example.alice)
    by (vm_compute; reflexivity).
  assert (H3 : eligibleCount (users (repo Example.withTeam)) Example.alice
               ≤ 2) by (vm_compute; lia).
  split; [apply withTeam_reachable|]. split_and!; try assumption.
  exact (CreatePR_assigns_all stdOrder_ok 100 Example.rnd 10 "fix" 1 _ _ _ _
           withTeam_reachable H1 H2 H3).
Defined.

Lemma ReassignReviewer_progress_witness :
  reachable Example.withPR4
  ∧ pullRequests (repo Example.withPR4) !! 10%N = Some Example.pr10
  ∧ PullRequest.Status Example.pr10 ≠ StatusMerged
  ∧ 2%N ∈ reviewersOf Example.withPR4 Example.pr10
  ∧ users (repo Example.withPR4) !! 2%N = Some Example.bob
  ∧ users (repo Example.withPR4) !! 4%N = Some Example.dave
  ∧ replacement (User.TeamName Example.bob)
      (PullRequest.AuthorID Example.pr10)
      (reviewersOf Example.withPR4 Example.pr10) Example.dave
  ∧ ∃ newID m',
      usecase.ReassignReviewer Example.rnd 10 2 Example.withPR4
      = (Ok (Example.pr10, newID), m').
Proof.
  assert (H1 : pullRequests (repo Example.withPR4) !! 10%N
               = Some Example.pr10) by (vm_compute; reflexivity).
  assert (H2 : PullRequest.Status Example.pr10 ≠ StatusMerged)
    by (simpl; discriminate).
  assert (H3 : 2%N ∈ reviewersOf Example.withPR4 Example.pr10)
    by (apply (bool_decide_unpack _); vm_compute; exact I).
  assert (H4 : users (repo Example.withPR4) !! 2%N = Some Example.bob)
    by (vm_compute; reflexivity).
  assert (H5 : users (repo Example.withPR4) !! 4%N = Some Example.dave)
    by (vm_compute; reflexivity).
  assert (H6 : replacement (User.TeamName Example.bob)
                 (PullRequest.AuthorID Example.pr10)
                 (reviewersOf Example.withPR4 Example.pr10) Example.dave).
  { unfold replacement. split; [reflexivity|]. split; [reflexivity|].
    split; [simpl; discriminate|].
    apply (bool_decide_unpack _); vm_compute; exact I. }
  split; [apply withPR4_reachable|]. split_and!; try assumption.
  exact (ReassignReviewer_progress stdOrder_ok Example.rnd 10 2 _ _ _ _ _
           withPR4_reachable H1 H2 H3 H4 H5 H6).
Defined.

Lemma ReassignReviewer_frame_witness :
  reachable Example.withPR4
  ∧ usecase.ReassignReviewer Example.rnd 10 2 Example.withPR4
    = (Ok (Example.pr10, 4%N), Example.reassigned)
  ∧ repo Example.reassigned = repo Example.withPR4
  ∧ ∀ k pr0, pullRequests (repo Example.withPR4) !! k = Some pr0 →
      k ≠ 10%N →
      reviewersOf Example.reassigned pr0 = reviewersOf Example.withPR4 pr0.
Proof.
  assert (H : usecase.ReassignReviewer Example.rnd 10 2 Example.withPR4
              = (Ok (Example.pr10, 4%N), Example.reassigned))
    by (vm_compute; reflexivity).
  split; [apply withPR4_reachable|]. split; [exact H|].
  exact (ReassignReviewer_frame Example.rnd 10 2 _ _ _ _
           withPR4_reachable H).
Defined.

Lemma MergePR_outcome_witness :
  reachable Example.withPR
  ∧ match usecase.MergePR 200 10 Example.withPR with
    | (Ok pr', m') =>
        ∃ pr,
          pullRequests (repo Example.withPR) !! 10%N = Some pr
          ∧ pr' = PullRequest.mk 10 (PullRequest.PullRequestName pr)
                    (PullRequest.AuthorID pr) StatusMerged
                    (PullRequest.AssignedReviewers pr)
                    (PullRequest.CreatedAt pr)
                    (if decide (PullRequest.Status pr = StatusMerged)
                     then PullRequest.MergedAt pr else Some 200%Z)
          ∧ m' = set_pullRequests <[10%N := pr']> Example.withPR
    | (Err e, m') =>
        e = ErrNotFound
        ∧ pullRequests (repo Example.withPR) !! 10%N = None
        ∧ m' = Example.withPR
    end.
Proof.
  split; [apply withPR_reachable|].
  exact (MergePR_outcome 200 10 _ withPR_reachable).
Defined.

Lemma MergePR_then_ReassignReviewer_witness :
  reachable Example.withPR
  ∧ usecase.MergePR 200 10 Example.withPR
    = (Ok Scenario.pr10merged, Example.merged10)
  ∧ ∀ rnd oldReviewerID,
      usecase.ReassignReviewer rnd 10 oldReviewerID Example.merged10
      = (Err ErrPRMerged, Example.merged10).
Proof.
  assert (H : usecase.MergePR 200 10 Example.withPR
              = (Ok Scenario.pr10merged, Example.merged10))
    by (vm_compute; reflexivity).
  split; [apply withPR_reachable|]. split; [exact H|].
  exact (MergePR_then_ReassignReviewer 200 10 _ _ _ withPR_reachable H).
Defined.


Lemma merged_pullRequest_frozen_witness :
  reachable Example.merged10
  ∧ evolves Example.merged10 Scenario.later
  ∧ pullRequests (repo Example.merged10) !! 10%N = Some Scenario.pr10merged
  ∧ PullRequest.Status Scenario.pr10merged = StatusMerged
  ∧ pullRequests (repo Scenario.later) !! 10%N = Some Scenario.pr10merged
  ∧ reviewersOf Scenario.later Scenario.pr10merged
    = reviewersOf Example.merged10 Scenario.pr10merged.
Proof.
  assert (H : pullRequests (repo Example.merged10) !! 10%N
              = Some Scenario.pr10merged) by (vm_compute; reflexivity).
  split; [apply merged10_reachable|]. split; [apply merged10_evolves|].
  split; [exact H|]. split; [reflexivity|].
  exact (merged_pullRequest_frozen _ _ _ _ merged10_reachable
           merged10_evolves H eq_refl).
Defined.

Lemma pullRequest_persists_witness :
  reachable Example.withPR
  ∧ evolves Example.withPR Example.merged10
  ∧ pullRequests (repo Example.withPR) !! 10%N = Some Example.pr10
  ∧ ∃ pr',
      pullRequests (repo Example.merged10) !! 10%N = Some pr'
      ∧ PullRequest.PullRequestID pr'
        = PullRequest.PullRequestID Example.pr10
      ∧ PullRequest.PullRequestName pr'
        = PullRequest.PullRequestName Example.pr10
      ∧ PullRequest.AuthorID pr' = PullRequest.AuthorID Example.pr10
      ∧ PullRequest.CreatedAt pr' = PullRequest.CreatedAt Example.pr10
      ∧ length (reviewersOf Example.merged10 pr')
        = length (reviewersOf Example.withPR Example.pr10).
Proof.
  assert (H : pullRequests (repo Example.withPR) !! 10%N
              = Some Example.pr10) by (vm_compute; reflexivity).
  split; [apply withPR_reachable|]. split; [apply withPR_evolves|].
  split; [exact H|].
  exact (pullRequest_persists _ _ _ _ withPR_reachable withPR_evolves H).
Defined.

Lemma users_teams_persist_witness :
  evolves Example.merged10 Scenario.later
  ∧ (∀ k, is_Some (users (repo Example.merged10) !! k) →
          is_Some (users (repo Scenario.later) !! k))
  ∧ (∀ name team, teams (repo Example.merged10) !! name = Some team →
       teams (repo Scenario.later) !! name = Some team).
Proof.
  split; [apply merged10_evolves|].
  exact (users_teams_persist _ _ merged10_evolves).
Defined.

Lemma GetUserReviews_lists_witness :
  reachable Example.withPR
  ∧ ∃ prs,
      usecase.GetUserReviews 2 Example.withPR = (Ok prs, Example.withPR)
      ∧ (∀ pr, pr ∈ prs
              ↔ pullRequests (repo Example.withPR)
                  !! PullRequest.PullRequestID pr = Some pr
                ∧ 2%N ∈ reviewersOf Example.withPR pr)
      ∧ NoDup (PullRequest.PullRequestID <$> prs).
Proof.
  split; [apply withPR_reachable|].
  exact (GetUserReviews_lists stdOrder_ok 2 _ withPR_reachable).
Defined.

Lemma GetUsersByTeam_lists_witness :
  reachable Example.withPR
  ∧ ∃ us,
      GetUsersByTeam "A" Example.withPR = (Ok us, Example.withPR)
      ∧ (∀ u, u ∈ us
             ↔ users (repo Example.withPR) !! User.UserID u = Some u
               ∧ User.TeamName u = "A")
      ∧ NoDup (User.UserID <$> us).
Proof.
  split; [apply withPR_reachable|].
  exact (GetUsersByTeam_lists stdOrder_ok "A" _ withPR_reachable).
Defined.

Lemma AddTeam_keeps_old_membership_witness :
  usecase.AddTeam Example.teamB Scenario.members Example.withTeam
  = (Ok Example.teamB, Scenario.withTeamB)
  ∧ teams (repo Example.withTeam) !! "A" = Some (Team.mk "A" [1; 2; 3]%N)
  ∧ Example.bob2 ∈ Scenario.members
  ∧ User.UserID Example.bob2 ∈ Team.Members (Team.mk "A" [1; 2; 3]%N)
  ∧ ∃ us moved,
      usecase.GetTeam "A" Scenario.withTeamB
      = (Ok (Team.mk "A" [1; 2; 3]%N, us), Scenario.withTeamB)
      ∧ latest (User.UserID Example.bob2) Scenario.members = Some moved
      ∧ moved ∈ us.
Proof.
  assert (H1 : usecase.AddTeam Example.teamB Scenario.members Example.withTeam
               = (Ok Example.teamB, Scenario.withTeamB))
    by (vm_compute; reflexivity).
  assert (H2 : teams (repo Example.withTeam) !! "A"
               = Some (Team.mk "A" [1; 2; 3]%N)) by (vm_compute; reflexivity).
  assert (H3 : Example.bob2 ∈ Scenario.members)
    by (apply (bool_decide_unpack _); vm_compute; exact I).
  assert (H4 : User.UserID Example.bob2
               ∈ Team.Members (Team.mk "A" [1; 2; 3]%N))
    by (apply (bool_decide_unpack _); vm_compute; exact I).
  split_and!; try assumption.
  exact (AddTeam_keeps_old_membership _ _ _ _ _ _ _ _ H1 H2 H3 H4).
Defined.

Lemma inactive_never_assigned_witness :
  reachable Scenario.withInactive
  ∧ users (repo Scenario.withInactive) !! 5%N = Some Example.erin
  ∧ User.IsActive Example.erin = false
  ∧ (∀ now rnd prID prName authorID pr m',
       usecase.CreatePR now rnd prID prName authorID Scenario.withInactive
       = (Ok pr, m') →
       5%N ∉ reviewersOf m' pr)
  ∧ (∀ rnd prID oldReviewerID pr newID m',
       usecase.ReassignReviewer rnd prID oldReviewerID Scenario.withInactive
       = (Ok (pr, newID), m') →
       newID ≠ 5%N).
Proof.
  assert (H : users (repo Scenario.withInactive) !! 5%N = Some Example.erin)
    by (vm_compute; reflexivity).
  split; [apply withInactive_reachable|]. split; [exact H|].
  split; [reflexivity|].
  exact (inactive_never_assigned stdOrder_ok _ _ _ withInactive_reachable
           H eq_refl).
Defined.

Lemma rejected_request_writes_nothing_witness :
  let r := Request.PullRequestMerge 300
             (Some (controller.MergePRRequest.mk "uxxx")) in
  reachable Example.withPR
  ∧ 400 ≤ controller.status (serve r Example.withPR).1
  ∧ (serve r Example.withPR).2 = Example.withPR.
Proof.
  intros r.
  assert (H : 400 ≤ controller.status (serve r Example.withPR).1)
    by (vm_compute; lia).
  split; [apply withPR_reachable|]. split; [exact H|].
  exact (rejected_request_writes_nothing r _ withPR_reachable H).
Defined.

Lemma TeamController_AddTeam_created_witness :
  controller.parseMembers (controller.TeamDTO.Members Scenario.addA)
    (controller.TeamDTO.TeamName Scenario.addA) = Some Scenario.parsedA
  ∧ teams (repo initial) !! controller.TeamDTO.TeamName Scenario.addA = None
  ∧ controller.TeamController_AddTeam (Some Scenario.addA) initial
    = (controller.sendJSON controller.StatusCreated
         (controller.TeamResponse
            (controller.TeamDTO.mk "A"
               (controller.TeamMemberToDTO
                  <$> omap (λ u, latest (User.UserID u) Scenario.parsedA)
                        Scenario.parsedA))),
       set_teams <["A" := Team.mk "A" [1; 2]%N]>
         (set_users (λ us, upsert us Scenario.parsedA) initial))
  ∧ length (omap (λ u, latest (User.UserID u) Scenario.parsedA)
              Scenario.parsedA)
    = length (controller.TeamDTO.Members Scenario.addA)
  ∧ (NoDup (User.UserID <$> Scenario.parsedA) →
     omap (λ u, latest (User.UserID u) Scenario.parsedA) Scenario.parsedA
     = Scenario.parsedA).
Proof.
  assert (H1 : controller.parseMembers
                 (controller.TeamDTO.Members Scenario.addA)
                 (controller.TeamDTO.TeamName Scenario.addA)
               = Some Scenario.parsedA) by (vm_compute; reflexivity).
  assert (H2 : teams (repo initial)
                 !! controller.TeamDTO.TeamName Scenario.addA = None)
    by (vm_compute; reflexivity).
  split; [exact H1|]. split; [exact H2|].
  exact (TeamController_AddTeam_created Scenario.addA Scenario.parsedA
           initial H1 H2).
Defined.


Lemma UserController_GetReview_unknown_user_witness :
  reachable Example.withPR
  ∧ "uxxxxxxx" ≠ ""
  ∧ uuid_Parse "uxxxxxxx" = Some 7%N
  ∧ users (repo Example.withPR) !! 7%N = None
  ∧ controller.UserController_GetReview "uxxxxxxx" Example.withPR
    = (controller.sendJSON controller.StatusOK
         (controller.ReviewsResponse "uxxxxxxx" []), Example.withPR).
Proof.
  assert (H1 : "uxxxxxxx" ≠ "") by discriminate.
  assert (H2 : uuid_Parse "uxxxxxxx" = Some 7%N) by (vm_compute; reflexivity).
  assert (H3 : users (repo Example.withPR) !! 7%N = None)
    by (vm_compute; reflexivity).
  split; [apply withPR_reachable|]. split_and!; try assumption.
  exact (UserController_GetReview_unknown_user _ _ _ stdOrder_ok
           withPR_reachable H1 H2 H3).
Defined.

Lemma PullRequestToDTO_mergedAt_witness :
  reachable Example.merged10
  ∧ pullRequests (repo Example.merged10) !! 10%N = Some Scenario.pr10merged
  ∧ let dto := controller.PullRequestToDTO Example.merged10
                 Scenario.pr10merged in
    (is_Some (controller.PullRequestDTO.MergedAt dto)
     ↔ controller.PullRequestDTO.Status dto = "MERGED")
    ∧ is_Some (controller.PullRequestDTO.CreatedAt dto)
    ∧ length (controller.PullRequestDTO.AssignedReviewers dto) ≤ 2.
Proof.
  assert (H : pullRequests (repo Example.merged10) !! 10%N
              = Some Scenario.pr10merged) by (vm_compute; reflexivity).
  split; [apply merged10_reachable|]. split; [exact H|].
  exact (PullRequestToDTO_mergedAt _ _ _ merged10_reachable H).
Defined.

Lemma TeamMember_roundtrip_witness :
  uuid_Parse (uuid_String (User.UserID Example.alice))
  = Some (User.UserID Example.alice)
  ∧ controller.TeamMemberDTOToEntity
      (controller.TeamMemberToDTO Example.alice)
      (User.TeamName Example.alice) = Some Example.alice.
Proof.
  assert (H : uuid_Parse (uuid_String (User.UserID Example.alice))
              = Some (User.UserID Example.alice))
    by (vm_compute; reflexivity).
  split; [exact H|]. exact (TeamMember_roundtrip Example.alice H).
Defined.
End more_witnesses.
